(** * DocSync Agent: a shallow embedding of [docsync_agent/scanner.py]

    The development models the scanner of the DocSync Agent: the walk over
    the syntax tree that collects function records, the stub inserter that
    patches source files, and the renderer and splicer of the README's API
    reference.  Python values are modelled as follows.

    - [str] is [string]: a sequence of bytes holding the UTF-8 encoding of
      the text.  The two markers, the newline and every character the code
      tests for are ASCII, and UTF-8 is self-synchronising and preserves
      code-point order, so substring search, splitting and string comparison
      on the encoding agree with Python's on code points.
    - [int] is [Z]; [list] is [list]; [None | str] is [option string].
    - A [dict] that is iterated is an association list in insertion order.
    - The file system is a finite map from paths to decoded file contents,
      together with the log of the reads and writes performed.
    - [ast.parse], [os.path.relpath], [str.splitlines] and [str.strip] come
      from CPython's library, not from this repository: they are section
      variables. *)

From Stdlib Require Import ZArith Ascii String List Permutation Sorted Lia.
From Equations Require Import Equations.
From stdpp Require Import base option list gmap strings.

Local Open Scope list_scope.

(** ** Python's [str] operations *)

Module PyStr.

(** [s.startswith(p)] *)
Definition startswith (s p : string) : bool := String.prefix p s.

(** [s[n:]] for [0 <= n] *)
Fixpoint drop (n : nat) (s : string) : string :=
  match n, s with
  | O, _ => s
  | S _, EmptyString => EmptyString
  | S k, String _ s' => drop k s'
  end.

(** [s.endswith(p)]: the text of the last [len(p)] characters is [p]. *)
Definition endswith (s p : string) : bool :=
  (String.length p <=? String.length s)%nat
  && String.eqb (drop (String.length s - String.length p) s) p.

(** [sub in s]: [sub] starts at some position of [s]. *)
Fixpoint contains (sub s : string) : bool :=
  String.prefix sub s
  || match s with
     | EmptyString => false
     | String _ s' => contains sub s'
     end.

(** [s.partition(sep)] when [sep] occurs: the text before the first
    occurrence of [sep] and the text after it. *)
Fixpoint cut (sep s : string) : option (string * string) :=
  if String.prefix sep s then Some (EmptyString, drop (String.length sep) s)
  else match s with
       | EmptyString => None
       | String c s' =>
           match cut sep s' with
           | Some (b, a) => Some (String c b, a)
           | None => None
           end
       end.

Lemma length_drop n s : String.length (drop n s) = (String.length s - n)%nat.
Proof.
  revert s; induction n as [|n IH]; intros [|c s]; simpl; auto.
Qed.

Lemma prefix_length p s :
  String.prefix p s = true -> (String.length p <= String.length s)%nat.
Proof.
  revert p; induction s as [|c s IH]; intros [|d p]; simpl; try lia; try discriminate.
  destruct (ascii_dec d c); [|discriminate].
  intros H; apply IH in H; lia.
Qed.

Lemma cut_eq sep s :
  cut sep s =
  if String.prefix sep s then Some (EmptyString, drop (String.length sep) s)
  else match s with
       | EmptyString => None
       | String c s' =>
           match cut sep s' with
           | Some (b, a) => Some (String c b, a)
           | None => None
           end
       end.
Proof. destruct s; reflexivity. Qed.

Lemma cut_length sep s b a :
  cut sep s = Some (b, a) ->
  String.length s = (String.length b + String.length sep + String.length a)%nat.
Proof.
  revert b a; induction s as [|c s IH]; intros b a; rewrite cut_eq;
    destruct (String.prefix sep _) eqn:E.
  - intros [= <- <-]. apply prefix_length in E. rewrite length_drop. simpl in *. lia.
  - discriminate.
  - intros [= <- <-]. apply prefix_length in E. rewrite length_drop. simpl in *. lia.
  - destruct (cut sep s) as [[b' a']|] eqn:C; [|discriminate].
    intros [= <- <-]. specialize (IH _ _ eq_refl). simpl. lia.
Qed.

Definition inspect {A : Type} (a : A) : {b : A | a = b} := exist _ a eq_refl.

(** The pieces of [s] between the successive, non-overlapping occurrences
    of a non-empty separator, found from left to right. *)
Equations? split_at (c : ascii) (sep' : string) (s : string) : list string
  by wf (String.length s) lt :=
  split_at c sep' s with inspect (cut (String c sep') s) := {
    | exist _ (Some (pair b a)) E => b :: split_at c sep' a
    | exist _ None _ => [s] }.
Proof.
  apply cut_length in E. simpl in E. lia.
Qed.

(** [s.split(sep)]; [None] is the [ValueError] raised for an empty
    separator. *)
Definition split (s sep : string) : option (list string) :=
  match sep with
  | EmptyString => None
  | String c sep' => Some (split_at c sep' s)
  end.

(** [sep.join(parts)] *)
Definition join (sep : string) (parts : list string) : string :=
  String.concat sep parts.

(** [" " * n]: empty when [n <= 0]. *)
Definition spaces (n : Z) : string :=
  string_of_list_ascii (repeat " "%char (Z.to_nat n)).

(** [s.replace(c, r)] for a one-character pattern [c]. *)
Fixpoint replace_char (c : ascii) (r : string) (s : string) : string :=
  match s with
  | EmptyString => EmptyString
  | String d s' =>
      (if Ascii.eqb d c then r else String d EmptyString) +:+ replace_char c r s'
  end.

End PyStr.


(** The characters that cannot be written inside a string literal. *)
Definition dquote : string := String "034"%char EmptyString.
Definition newline : string := String "010"%char EmptyString.
Definition backslash : string := String "092"%char EmptyString.

(** ** Exceptions *)

Inductive exn : Type :=
| FileNotFoundError (path : string)
| ValueError
| IndexError
| OtherError.

Inductive result (A : Type) : Type :=
| Ok (a : A)
| Raise (e : exn).
Arguments Ok {A} a.
Arguments Raise {A} e.

Definition result_bind {A B : Type} (r : result A) (k : A -> result B) : result B :=
  match r with
  | Ok a => k a
  | Raise e => Raise e
  end.

(** [l[i]] for [0 <= i]: [IndexError] out of range. *)
Definition index {A : Type} (l : list A) (i : nat) : result A :=
  match l !! i with
  | Some a => Ok a
  | None => Raise IndexError
  end.

(** [s.split(sep)] with its exception. *)
Definition str_split (s sep : string) : result (list string) :=
  match PyStr.split s sep with
  | Some parts => Ok parts
  | None => Raise ValueError
  end.

(** ** Python's [list] operations *)

(** [l.insert(i, x)]: a negative index counts from the end, and an index
    beyond either end is clamped to that end. *)
Definition list_insert {A : Type} (l : list A) (i : Z) (x : A) : list A :=
  let n := Z.of_nat (length l) in
  let j := if (i <? 0)%Z then Z.max 0 (i + n) else Z.min i n in
  take (Z.to_nat j) l ++ x :: drop (Z.to_nat j) l.

(** [sorted]: a stable sort, written as the insertion of each element, from
    the last to the first, before the first element it does not follow. *)
Fixpoint sorted_insert {A : Type} (leb : A -> A -> bool) (x : A) (l : list A) : list A :=
  match l with
  | [] => [x]
  | y :: ys => if leb x y then x :: y :: ys else y :: sorted_insert leb x ys
  end.

Definition sorted {A : Type} (leb : A -> A -> bool) (l : list A) : list A :=
  foldr (sorted_insert leb) [] l.

(** ** The syntax tree of the [ast] module

    Only what the scanner inspects is kept: definitions, classes, the
    expression statement that may hold a docstring, and the nesting of
    statements.  A node's children that are not statements (expressions,
    the [arguments] node, decorators) are never definitions or classes, so
    the scanner's loop passes over them. *)

Module ast.

Inductive constant : Type :=
| Str (s : string)
| NotStr.

Inductive expr : Type :=
| Constant (value : constant)
| OtherExpr.

Record arg_t : Type := { arg : string }.

Record arguments : Type := {
  posonlyargs : list arg_t;
  args : list arg_t;
  vararg : option arg_t;
  kwonlyargs : list arg_t;
  kwarg : option arg_t
}.

#[warnings="-register-all"]
Inductive stmt : Type :=
| FunctionDef (name : string) (a : arguments) (body : list stmt)
    (lineno col_offset : Z)
| AsyncFunctionDef (name : string) (a : arguments) (body : list stmt)
    (lineno col_offset : Z)
| ClassDef (name : string) (body : list stmt)
| Expr (value : expr)
| If (body orelse : list stmt)
| Compound (blocks : list stmt)
    (* for, while, with, try, match: the statements of its blocks *)
| Simple.
    (* pass, return, assignment, import and the like *)

Inductive node : Type :=
| Module (body : list stmt)
| Stmt (s : stmt).

(** [ast.iter_child_nodes], restricted to the children that are
    statements. *)
Definition iter_child_nodes (n : node) : list stmt :=
  match n with
  | Module body => body
  | Stmt (FunctionDef _ _ body _ _) => body
  | Stmt (AsyncFunctionDef _ _ body _ _) => body
  | Stmt (ClassDef _ body) => body
  | Stmt (If body orelse) => body ++ orelse
  | Stmt (Compound blocks) => blocks
  | Stmt (Expr _) => []
  | Stmt Simple => []
  end.

(** [ast.get_docstring(node, clean=False)] on the body of a definition:
    the string constant of a leading expression statement. *)
Definition get_docstring (body : list stmt) : option string :=
  match body with
  | Expr (Constant (Str text)) :: _ => Some text
  | _ => None
  end.

(** The outcome of [ast.parse]. *)
Inductive parse_result : Type :=
| Parsed (body : list stmt)
| SyntaxError
| ParseError (e : exn).

End ast.

(** ** [FunctionInfo] *)

Record FunctionInfo : Type := {
  name : string;
  args : list string;
  docstring : option string;
  lineno : Z;
  col_offset : Z;
  file_path : string
}.

Definition signature (self : FunctionInfo) : string :=
  name self +:+ "(" +:+ PyStr.join ", " (args self) +:+ ")".

(** ** [_gather_functions] *)

(** Lines 48-52: the loop that builds the list of argument names. *)
Definition arg_names (a : ast.arguments) : list string :=
  fold_left
    (fun acc x => if String.eqb (ast.arg x) "self" then acc else acc ++ [ast.arg x])
    (ast.args a) [].

(** Lines 53-61: the record of one definition. *)
Definition function_info (file_path name : string) (a : ast.arguments)
    (body : list ast.stmt) (lineno col_offset : Z) : FunctionInfo :=
  {| name := name;
     args := arg_names a;
     docstring := ast.get_docstring body;
     lineno := lineno;
     col_offset := col_offset;
     file_path := file_path |}.

(** One iteration of the loop over the children: the record of the child
    when it is a definition, then the records of the walk below it when it
    is a class or a definition. *)
Fixpoint visit_child (file_path : string) (child : ast.stmt) : list FunctionInfo :=
  match child with
  | ast.FunctionDef n a body ln col =>
      function_info file_path n a body ln col
      :: flat_map (visit_child file_path) body
  | ast.AsyncFunctionDef n a body ln col =>
      function_info file_path n a body ln col
      :: flat_map (visit_child file_path) body
  | ast.ClassDef _ body => flat_map (visit_child file_path) body
  | _ => []
  end.

Definition _gather_functions (node : ast.node) (file_path : string) : list FunctionInfo :=
  flat_map (visit_child file_path) (ast.iter_child_nodes node).

(** ** Files and their accesses *)

Inductive event : Type :=
| EvRead (path : string)
| EvWrite (path : string).

Record world : Type := {
  files : gmap string string;
  log : list event
}.

Definition IO (A : Type) : Type := world -> world * result A.

Definition ret {A : Type} (a : A) : IO A := fun w => (w, Ok a).

Definition raise {A : Type} (e : exn) : IO A := fun w => (w, Raise e).

Definition bind {A B : Type} (m : IO A) (k : A -> IO B) : IO B :=
  fun w =>
    match m w with
    | (w', Ok a) => k a w'
    | (w', Raise e) => (w', Raise e)
    end.

Notation "'do' x <- m ;; k" := (bind m (fun x => k))
  (at level 10, x name, m at level 99, k at level 200).

Definition lift {A : Type} (r : result A) : IO A := fun w => (w, r).

(** A [for] loop that threads an accumulator and stops at the first
    exception, keeping the effects performed so far. *)
Fixpoint for_each {A S : Type} (body : S -> A -> IO S) (l : list A) (s : S) : IO S :=
  match l with
  | [] => ret s
  | x :: xs => do s' <- body s x ;; for_each body xs s'
  end.

(** Reading in text mode translates the line endings ["\r\n"] and ["\r"]
    into ["\n"]. *)
Fixpoint universal_newlines (s : string) : string :=
  match s with
  | EmptyString => EmptyString
  | String "013"%char s' =>
      match s' with
      | String "010"%char _ => universal_newlines s'
      | _ => String "010"%char (universal_newlines s')
      end
  | String c s' => String c (universal_newlines s')
  end.

(** [open(path, "r").read()] *)
Definition read_text (path : string) : IO string :=
  fun w =>
    let w' := {| files := files w; log := log w ++ [EvRead path] |} in
    match files w !! path with
    | Some text => (w', Ok (universal_newlines text))
    | None => (w', Raise (FileNotFoundError path))
    end.

(** [open(path, "w").write(text)]: creates or overwrites the file. *)
Definition write_text (path text : string) : IO unit :=
  fun w =>
    ({| files := <[path := text]> (files w); log := log w ++ [EvWrite path] |},
     Ok tt).

(** [os.path.exists(path)] *)
Definition path_exists (path : string) : IO bool :=
  fun w => (w, Ok (bool_decide (is_Some (files w !! path)))).

(** The lines of a text, each with its line ending: what [readlines]
    returns for a file that holds the text. *)
Fixpoint lines_of (text : string) : list string :=
  match text with
  | EmptyString => []
  | String c text' =>
      if Ascii.eqb c "010"%char then String c EmptyString :: lines_of text'
      else match lines_of text' with
           | [] => [String c EmptyString]
           | l :: ls => String c l :: ls
           end
  end.

(** [f.readlines()] *)
Definition readlines (path : string) : IO (list string) :=
  do text <- read_text path ;; ret (lines_of text).

(** [f.writelines(lines)] *)
Definition writelines (path : string) (lines : list string) : IO unit :=
  write_text path (String.concat "" lines).

(** ** [scan_python_file] *)

Section Scanner.

(** [ast.parse(source, filename=file_path)], CPython's parser. *)
Variable ast_parse : string -> ast.parse_result.

Definition scan_python_file (file_path : string) : IO (list FunctionInfo) :=
  do source <- read_text file_path ;;
  match ast_parse source with
  | ast.Parsed tree => ret (_gather_functions (ast.Module tree) file_path)
  | ast.SyntaxError => ret []
  | ast.ParseError e => raise e
  end.

(** [cli.main], lines 52-54 and 62-64: the records of all the files. *)
Definition scan_step (functions : list FunctionInfo) (file_path : string)
  : IO (list FunctionInfo) :=
  do found <- scan_python_file file_path ;; ret (functions ++ found).

Definition scan_files (files : list string) : IO (list FunctionInfo) :=
  for_each scan_step files [].

End Scanner.

(** ** [find_python_files] *)

(** A directory: its sub-directories and its other entries, by name, in
    the order in which [os.walk] lists them. *)
#[warnings="-register-all"]
Inductive dir : Type :=
| Dir (subdirs : list (string * dir)) (filenames : list string).

(** [os.path.join(a, b)] on POSIX. *)
Definition path_join (a b : string) : string :=
  if PyStr.startswith b "/" then b
  else if String.eqb a "" || PyStr.endswith a "/" then a +:+ b
  else a +:+ "/" +:+ b.

(** [os.walk(top)], top-down: the directory itself, then the walk of each
    sub-directory. *)
Fixpoint os_walk (top : string) (d : dir) : list (string * list string * list string) :=
  match d with
  | Dir subdirs filenames =>
      (top, map fst subdirs, filenames)
      :: flat_map (fun sub => os_walk (path_join top (fst sub)) (snd sub)) subdirs
  end.

Definition is_python_file (filename : string) : bool :=
  PyStr.endswith filename ".py" && negb (PyStr.startswith filename ".").

Definition find_python_files (root_dir : string) (tree : dir) : list string :=
  fold_left
    (fun files '(base, _dirs, filenames) =>
       fold_left
         (fun files filename =>
            if is_python_file filename then files ++ [path_join base filename]
            else files)
         filenames files)
    (os_walk root_dir tree) [].

(** ** [insert_missing_docstrings] *)

(** [d.setdefault(key, []).append(x)] on a dictionary kept in insertion
    order: a new key goes last, a known key keeps its place. *)
Fixpoint setdefault_append {A : Type} (d : list (string * list A)) (key : string) (x : A)
  : list (string * list A) :=
  match d with
  | [] => [(key, [x])]
  | (k, xs) :: d' =>
      if String.eqb k key then (k, xs ++ [x]) :: d'
      else (k, xs) :: setdefault_append d' key x
  end.

(** Lines 119-122: the undocumented records, by file. *)
Definition functions_by_file (functions : list FunctionInfo)
  : list (string * list FunctionInfo) :=
  fold_left
    (fun d func =>
       match docstring func with
       | None => setdefault_append d (file_path func) func
       | Some _ => d
       end)
    functions [].

(** Lines 131-132: the stub line of a record. *)
Definition stub (func_info : FunctionInfo) : string :=
  let indent := PyStr.spaces (col_offset func_info + 4) in
  indent +:+ dquote +:+ dquote +:+ dquote +:+ "TODO: Document `"
  +:+ name func_info +:+ "`." +:+ dquote +:+ dquote +:+ dquote +:+ newline.

(** Line 129: [sorted(funcs, key=lambda f: f.lineno, reverse=True)]. *)
Definition funcs_sorted (funcs : list FunctionInfo) : list FunctionInfo :=
  sorted (fun f g => (lineno g <=? lineno f)%Z) funcs.

(** Lines 130-136: the insertions into the lines of one file. *)
Definition insert_step (lines : list string) (func_info : FunctionInfo) : list string :=
  list_insert lines (lineno func_info) (stub func_info).

Definition insert_stubs (lines : list string) (funcs : list FunctionInfo) : list string :=
  fold_left insert_step (funcs_sorted funcs) lines.

(** Lines 124-139: one file of the loop, with the running count. *)
Definition patch_file (count : Z) (item : string * list FunctionInfo) : IO Z :=
  let '(file_path, funcs) := item in
  do lines <- readlines file_path ;;
  do _ <- writelines file_path (insert_stubs lines funcs) ;;
  ret (count + Z.of_nat (length (funcs_sorted funcs)))%Z.

Definition insert_missing_docstrings (functions : list FunctionInfo) : IO Z :=
  for_each patch_file (functions_by_file functions) 0%Z.

(** ** [generate_api_reference] and [update_readme] *)

Definition start_marker : string := "<!-- DOCS START -->".
Definition end_marker : string := "<!-- DOCS END -->".

Section Reference.

(** [os.path.relpath], [str.splitlines] and [str.strip]. *)
Variable relpath : string -> string.
Variable splitlines : string -> list string.
Variable strip : string -> string.

(** Lines 157-160: the records by relative file name. *)
Definition grouped (functions : list FunctionInfo) : list (string * list FunctionInfo) :=
  fold_left
    (fun d func => setdefault_append d (relpath (file_path func)) func)
    functions [].

(** [grouped[file_name]] *)
Definition getitem {A : Type} (d : list (string * A)) (key : string) : result A :=
  match find (fun kv => String.eqb (fst kv) key) d with
  | Some kv => Ok (snd kv)
  | None => Raise OtherError
  end.

(** Line 165: [func.docstring or "TODO: Write documentation"]; the empty
    string is falsy. *)
Definition docstring_or_default (func : FunctionInfo) : string :=
  match docstring func with
  | Some (String c text) => String c text
  | _ => "TODO: Write documentation"
  end.

(** Lines 164-168: the bullet of one record. *)
Definition bullet (func : FunctionInfo) : result string :=
  result_bind (index (splitlines (docstring_or_default func)) 0) (fun first =>
  let doc := strip first in
  let signature_escaped := PyStr.replace_char "`"%char (backslash +:+ "`") (signature func) in
  Ok ("- **" +:+ signature_escaped +:+ "**: " +:+ doc)).

Definition heading (file_name : string) : string :=
  "### `" +:+ file_name +:+ "`".

(** The body of a loop that appends to [lines], with its exceptions. *)
Fixpoint extend_with {A : Type} (body : A -> result (list string)) (l : list A)
    (lines : list string) : result (list string) :=
  match l with
  | [] => Ok lines
  | x :: xs => result_bind (body x) (fun new => extend_with body xs (lines ++ new))
  end.

Definition generate_api_reference (functions : list FunctionInfo)
  : result (list string) :=
  let grouped := grouped functions in
  extend_with
    (fun file_name =>
       result_bind (getitem grouped file_name) (fun funcs =>
       result_bind
         (extend_with (fun func => result_bind (bullet func) (fun b => Ok [b]))
            funcs [heading file_name])
         (fun lines => Ok (lines ++ [""]))))
    (sorted String.leb (map fst grouped)) [].

(** Lines 197-206: the new text of the document. *)
Definition new_contents (contents api_content : string) : result string :=
  if PyStr.contains start_marker contents && PyStr.contains end_marker contents
  then
    result_bind (result_bind (str_split contents start_marker)
                   (fun parts => index parts 0)) (fun before =>
    result_bind (result_bind (str_split contents end_marker)
                   (fun parts => index parts 1)) (fun after =>
    Ok (before +:+ api_content +:+ after)))
  else
    let contents :=
      if PyStr.endswith contents newline then contents else contents +:+ newline in
    Ok (contents +:+ api_content +:+ newline).

Definition api_content (api_lines : list string) : string :=
  PyStr.join newline ([start_marker] ++ api_lines ++ [end_marker]).

Definition update_readme (project_root : string) (functions : list FunctionInfo)
  : IO unit :=
  let readme_path := path_join project_root "README.md" in
  do present <- path_exists readme_path ;;
  do contents <-
    (if present : bool then read_text readme_path
     else ret ("# Project Documentation" +:+ newline +:+ newline)) ;;
  do api_lines <- lift (generate_api_reference functions) ;;
  do text <- lift (new_contents contents (api_content api_lines)) ;;
  write_text readme_path text.

End Reference.

(** ** [cli.main] *)

Section Cli.

Variable ast_parse : string -> ast.parse_result.
Variable relpath : string -> string.
Variable splitlines : string -> list string.
Variable strip : string -> string.

(** Lines 52-57 with [--no-docstrings] unset: scan, then insert. *)
Definition insertion_pass (files : list string) : IO Z :=
  do functions <- scan_files ast_parse files ;;
  insert_missing_docstrings functions.

(** Lines 51-68, for a valid project directory whose listing is [tree];
    the messages printed are left out. *)
Definition main (project_dir : string) (tree : dir) (no_docstrings no_readme : bool)
  : IO unit :=
  let files := find_python_files project_dir tree in
  do functions <- scan_files ast_parse files ;;
  do functions <-
    (if no_docstrings then ret functions
     else
       do inserted <- insert_missing_docstrings functions ;;
       if (inserted >? 0)%Z then scan_files ast_parse files else ret functions) ;;
  if no_readme then ret tt
  else update_readme relpath splitlines strip project_dir functions.

End Cli.

(** ** The definitions of a tree, as the documentation describes them *)

(** The parameter list as documented: the declared names, without the first
    one when it is the receiver name [self]. *)
Definition first_receiver_omitted (declared : list string) : list string :=
  match declared with
  | first :: rest => if String.eqb first "self" then rest else declared
  | [] => []
  end.

(** The declared parameters of a definition, in the order of the header:
    positional-only, ordinary, starred, keyword-only, double-starred. *)
Definition declared_parameters (a : ast.arguments) : list string :=
  map ast.arg
    (ast.posonlyargs a ++ ast.args a ++ option_list (ast.vararg a)
     ++ ast.kwonlyargs a ++ option_list (ast.kwarg a)).

(** Every function and method definition below a statement, at any depth
    and under any kind of statement, in pre-order. *)
Fixpoint definitions_of (child : ast.stmt) : list ast.stmt :=
  match child with
  | ast.FunctionDef _ _ body _ _ => child :: flat_map definitions_of body
  | ast.AsyncFunctionDef _ _ body _ _ => child :: flat_map definitions_of body
  | ast.ClassDef _ body => flat_map definitions_of body
  | ast.If body orelse => flat_map definitions_of body ++ flat_map definitions_of orelse
  | ast.Compound blocks => flat_map definitions_of blocks
  | ast.Expr _ => []
  | ast.Simple => []
  end.

Definition all_definitions (tree : list ast.stmt) : list ast.stmt :=
  flat_map definitions_of tree.

(** The definitions that are nested in classes and definitions only, in
    pre-order. *)
Fixpoint reached_of (child : ast.stmt) : list ast.stmt :=
  match child with
  | ast.FunctionDef _ _ body _ _ => child :: flat_map reached_of body
  | ast.AsyncFunctionDef _ _ body _ _ => child :: flat_map reached_of body
  | ast.ClassDef _ body => flat_map reached_of body
  | _ => []
  end.

Definition reached_definitions (node : ast.node) : list ast.stmt :=
  flat_map reached_of (ast.iter_child_nodes node).

(** [info] is the record that lines 47-62 build for the definition [d]. *)
Definition is_record_of (file_path : string) (d : ast.stmt) (info : FunctionInfo) : Prop :=
  match d with
  | ast.FunctionDef n a body ln col => info = function_info file_path n a body ln col
  | ast.AsyncFunctionDef n a body ln col => info = function_info file_path n a body ln col
  | _ => False
  end.

(** The declared ordinary parameters of a definition, [d.args.args]. *)
Definition declared_args (d : ast.stmt) : list string :=
  match d with
  | ast.FunctionDef _ a _ _ _ => map ast.arg (ast.args a)
  | ast.AsyncFunctionDef _ a _ _ _ => map ast.arg (ast.args a)
  | _ => []
  end.

Definition not_self (n : string) : bool := negb (String.eqb n "self").

(** ** Sample sources *)

Definition plain_args (names : list string) : ast.arguments :=
  {| ast.posonlyargs := [];
     ast.args := map ast.Build_arg_t names;
     ast.vararg := None;
     ast.kwonlyargs := [];
     ast.kwarg := None |}.

(** [def f(x, self): pass] *)
Definition def_with_late_self : ast.stmt :=
  ast.FunctionDef "f" (plain_args ["x"; "self"]) [ast.Simple] 1 0.

(** A definition guarded by a condition:
<<
if True:
    def f():
        pass
>> *)
Definition guarded_def : list ast.stmt :=
  [ast.If [ast.FunctionDef "f" (plain_args []) [ast.Simple] 2 4] []].

(** [lies_under top d base d']: the walk from [d], named [top], comes to the
    directory [d'] under the name [base]. *)
Inductive lies_under : string -> dir -> string -> dir -> Prop :=
| lies_here top d : lies_under top d top d
| lies_below top subdirs filenames name sub base d' :
    In (name, sub) subdirs ->
    lies_under (path_join top name) sub base d' ->
    lies_under top (Dir subdirs filenames) base d'.

(** A project with a hidden directory that holds Python files. *)
Definition sample_project : dir :=
  Dir [(".venv", Dir [] ["site.py"; ".hidden.py"; "notes.txt"])] ["main.py"].

(** The list [l] with [x] put at position [k]. *)
Definition insert_at {A : Type} (k : nat) (x : A) (l : list A) : list A :=
  take k l ++ x :: drop k l.

(** The number of records whose header line is at most [j], that is, of the
    stubs inserted at or above the line of zero-based index [j]. *)
Definition stubs_above (j : nat) (funcs : list FunctionInfo) : nat :=
  length (List.filter (fun f => (lineno f <=? Z.of_nat j)%Z) funcs).

Definition later_line (f g : FunctionInfo) : Prop := (lineno g <= lineno f)%Z.

(** Two undocumented definitions of one file, and the lines of that file:
<<
class A:
    def f(self):
        return 1
def g():
    return 2
>> *)
Definition sample_lines : list string :=
  [ "class A:" +:+ newline;
    "    def f(self):" +:+ newline;
    "        return 1" +:+ newline;
    "def g():" +:+ newline;
    "    return 2" +:+ newline ].

Definition sample_records : list FunctionInfo :=
  [ {| name := "f"; args := []; docstring := None; lineno := 2; col_offset := 4;
       file_path := "a.py" |};
    {| name := "g"; args := []; docstring := None; lineno := 4; col_offset := 0;
       file_path := "a.py" |} ].

Definition undocumented (f : FunctionInfo) : bool :=
  match docstring f with
  | None => true
  | Some _ => false
  end.

(** An access to the file at [path]. *)
Definition touches (path : string) (e : event) : Prop :=
  e = EvRead path \/ e = EvWrite path.

(** A documented record of [lib.py] and an undocumented one of [app.py],
    with the files they come from. *)
Definition mixed_records : list FunctionInfo :=
  [ {| name := "done"; args := []; docstring := Some "Ready."; lineno := 1;
       col_offset := 0; file_path := "lib.py" |};
    {| name := "todo"; args := []; docstring := None; lineno := 1;
       col_offset := 0; file_path := "app.py" |} ].

Definition mixed_world : world :=
  {| files :=
       {[ "lib.py" := "def done():" +:+ newline +:+ "    " +:+ dquote +:+ "Ready."
                      +:+ dquote +:+ newline;
          "app.py" := "def todo():" +:+ newline +:+ "    pass" +:+ newline ]};
     log := [] |}.

(** A definition whose header spans two lines, before and after the first
    insertion pass:
<<
def f(x=[
]):
    pass
>>
    After the pass the stub line stands between the two lines of the header.
    Both texts are well-formed; in the second the stub is an element of the
    default value of [x], and the body of [f] still starts with [pass]. *)
Definition multiline_header_source : string :=
  "def f(x=[" +:+ newline +:+ "]):" +:+ newline +:+ "    pass" +:+ newline.

Definition multiline_header_stubbed : string :=
  "def f(x=[" +:+ newline
  +:+ "    " +:+ dquote +:+ dquote +:+ dquote +:+ "TODO: Document `f`."
  +:+ dquote +:+ dquote +:+ dquote +:+ newline
  +:+ "]):" +:+ newline +:+ "    pass" +:+ newline.

Definition multiline_header_tree : list ast.stmt :=
  [ast.FunctionDef "f" (plain_args ["x"]) [ast.Simple] 1 0].

(** A text that is not well-formed. *)
Definition malformed_source : string := "def f(:" +:+ newline.

(** An excerpt of CPython's parser: its answers on the sample sources.  A
    text outside the excerpt is answered with an error that is not a syntax
    error, so that nothing is concluded about it. *)
Definition sample_parse (source : string) : ast.parse_result :=
  if String.eqb source multiline_header_source then ast.Parsed multiline_header_tree
  else if String.eqb source multiline_header_stubbed then ast.Parsed multiline_header_tree
  else if String.eqb source malformed_source then ast.SyntaxError
  else if String.eqb source "" then ast.Parsed []
  else ast.ParseError OtherError.

Definition malformed_world : world :=
  {| files := {[ "bad.py" := malformed_source ]}; log := [] |}.

Definition multiline_header_world : world :=
  {| files := {[ "m.py" := multiline_header_source ]}; log := [] |}.

(** [sub] occurs in [s]. *)
Definition occurs (sub s : string) : Prop :=
  exists b a, s = b +:+ sub +:+ a.

(** [b] is the text of [s] before the first occurrence of [sub], and [a] the
    text after that occurrence. *)
Definition first_occurrence (sub s b a : string) : Prop :=
  s = b +:+ sub +:+ a
  /\ forall b' a', s = b' +:+ sub +:+ a' -> String.length b <= String.length b'.

(** The text with a line ending at its end, as line 204-205 make it. *)
Definition with_final_newline (contents : string) : string :=
  if PyStr.endswith contents newline then contents else contents +:+ newline.

(** A document whose markers stand inside a longer line. *)
Definition inline_markers_readme : string :=
  "intro <!-- DOCS START -->stale<!-- DOCS END --> outro" +:+ newline.

Definition inline_markers_world : world :=
  {| files := {[ "proj/README.md" := inline_markers_readme ]}; log := [] |}.

(** A document in which the end marker occurs twice. *)
Definition two_end_markers_readme : string :=
  "<!-- DOCS START -->old<!-- DOCS END -->keep<!-- DOCS END -->tail".

Definition two_end_markers_world : world :=
  {| files := {[ "proj/README.md" := two_end_markers_readme ]}; log := [] |}.

(** A line of the reference that is a file heading. *)
Definition is_heading (line : string) : bool := String.prefix "### `" line.

(** Records of three files, discovered in no particular order. *)
Definition scattered_records : list FunctionInfo :=
  [ {| name := "run"; args := ["job"]; docstring := Some "Run a job."; lineno := 3;
       col_offset := 0; file_path := "pkg/worker.py" |};
    {| name := "main"; args := []; docstring := None; lineno := 1;
       col_offset := 0; file_path := "app.py" |};
    {| name := "stop"; args := []; docstring := None; lineno := 9;
       col_offset := 0; file_path := "pkg/worker.py" |};
    {| name := "load"; args := ["path"]; docstring := Some "Load."; lineno := 2;
       col_offset := 0; file_path := "pkg/config.py" |} ].

(** The records of [path] that the inserter works on. *)
Definition eligible_in (path : string) (f : FunctionInfo) : bool :=
  undocumented f && String.eqb (file_path f) path.

(** The value of a dictionary at [key], empty when the key is missing. *)
Definition group_of {A : Type} (d : list (string * list A)) (key : string) : list A :=
  match find (fun kv => String.eqb (fst kv) key) d with
  | Some kv => snd kv
  | None => []
  end.

(** The text of a file after the stubs of [funcs] are inserted. *)
Definition patched (text : string) (funcs : list FunctionInfo) : string :=
  String.concat "" (insert_stubs (lines_of (universal_newlines text)) funcs).

(** A statement below which no definition stands inside a conditional, a
    loop, a [with], a [try] or a [match]. *)
Fixpoint unguarded (s : ast.stmt) : bool :=
  match s with
  | ast.FunctionDef _ _ body _ _ => forallb unguarded body
  | ast.AsyncFunctionDef _ _ body _ _ => forallb unguarded body
  | ast.ClassDef _ body => forallb unguarded body
  | ast.If body orelse =>
      match flat_map definitions_of body ++ flat_map definitions_of orelse with
      | [] => true
      | _ => false
      end
  | ast.Compound blocks =>
      match flat_map definitions_of blocks with
      | [] => true
      | _ => false
      end
  | ast.Expr _ => true
  | ast.Simple => true
  end.

(** A class with a documented method that holds a nested definition, next to
    an asynchronous function:
<<
class A:
    def f(self, x):
        'Doc.'
        def g(): pass
async def h(): pass
>> *)
Definition nested_tree : list ast.stmt :=
  [ ast.ClassDef "A"
      [ ast.FunctionDef "f" (plain_args ["self"; "x"])
          [ ast.Expr (ast.Constant (ast.Str "Doc."));
            ast.FunctionDef "g" (plain_args []) [ast.Simple] 4 8 ] 2 4 ];
    ast.AsyncFunctionDef "h" (plain_args []) [ast.Simple] 5 0 ].

(** A listing in which no name starts with a slash, as the names of
    directory entries are. *)
Fixpoint names_ok (d : dir) : bool :=
  match d with
  | Dir subdirs filenames =>
      forallb (fun sub => negb (PyStr.startswith (fst sub) "/") && names_ok (snd sub))
        subdirs
      && forallb (fun filename => negb (PyStr.startswith filename "/")) filenames
  end.

(** The bullet line of a record, for a documentation text of which
    [splitlines] yields a first line. *)
Definition bullet_line (splitlines : string -> list string) (strip : string -> string)
    (func : FunctionInfo) : string :=
  "- **" +:+ PyStr.replace_char "`"%char (backslash +:+ "`") (signature func)
  +:+ "**: " +:+ strip (hd "" (splitlines (docstring_or_default func))).

(** The record comes from the file with relative path [k]. *)
Definition in_file (relpath : string -> string) (k : string) (f : FunctionInfo) : bool :=
  String.eqb (relpath (file_path f)) k.

(** The lines of one file in the reference: heading, bullets, blank line. *)
Definition file_block (relpath : string -> string) (splitlines : string -> list string)
    (strip : string -> string) (functions : list FunctionInfo) (k : string)
  : list string :=
  heading k
  :: map (bullet_line splitlines strip) (List.filter (in_file relpath k) functions)
  ++ [""].

(** The text that stands for a document that does not exist yet. *)
Definition default_document : string :=
  "# Project Documentation" +:+ newline +:+ newline.

(** A world without any file. *)
Definition empty_world : world := {| files := ∅; log := [] |}.

(** The character [c] occurs in [s]. *)
Fixpoint has_char (c : ascii) (s : string) : bool :=
  match s with
  | EmptyString => false
  | String d s' => Ascii.eqb d c || has_char c s'
  end.

(** A name as identifiers are: not empty, without parenthesis or comma. *)
Definition plain_name (s : string) : bool :=
  negb (String.eqb s "") && negb (has_char "("%char s) && negb (has_char ","%char s).

Definition plain_record (f : FunctionInfo) : bool :=
  plain_name (name f) && forallb plain_name (args f).

(** A file whose last line is a definition header without a line ending:
<<
x = 1
def f(): pass
>> *)
Definition unterminated_source : string :=
  "x = 1" +:+ newline +:+ "def f(): pass".

Definition unterminated_world : world :=
  {| files := {[ "u.py" := unterminated_source ]}; log := [] |}.

(** The record that a scan of that file yields for [f]. *)
Definition unterminated_record : FunctionInfo :=
  {| name := "f"; args := []; docstring := None; lineno := 2; col_offset := 0;
     file_path := "u.py" |}.




(** A line with its line ending: a text without line break followed by one
    line break. *)
Definition is_line (s : string) : Prop :=
  exists body, s = body +:+ newline /\ has_char "010"%char body = false.

(** ** Induction over nested statements and directories *)

Section StmtInduction.

Variable P : ast.stmt -> Prop.
Hypothesis HFun : forall n a body ln col,
  Forall P body -> P (ast.FunctionDef n a body ln col).
Hypothesis HAsync : forall n a body ln col,
  Forall P body -> P (ast.AsyncFunctionDef n a body ln col).
Hypothesis HClass : forall n body, Forall P body -> P (ast.ClassDef n body).
Hypothesis HExpr : forall v, P (ast.Expr v).
Hypothesis HIf : forall body orelse,
  Forall P body -> Forall P orelse -> P (ast.If body orelse).
Hypothesis HCompound : forall blocks, Forall P blocks -> P (ast.Compound blocks).
Hypothesis HSimple : P ast.Simple.

Fixpoint stmt_nested_ind (s : ast.stmt) : P s :=
  let all := fix all (l : list ast.stmt) : Forall P l :=
    match l with
    | [] => @List.Forall_nil _ P
    | x :: xs => @List.Forall_cons _ P x xs (stmt_nested_ind x) (all xs)
    end in
  match s with
  | ast.FunctionDef n a body ln col => HFun n a body ln col (all body)
  | ast.AsyncFunctionDef n a body ln col => HAsync n a body ln col (all body)
  | ast.ClassDef n body => HClass n body (all body)
  | ast.Expr v => HExpr v
  | ast.If body orelse => HIf body orelse (all body) (all orelse)
  | ast.Compound blocks => HCompound blocks (all blocks)
  | ast.Simple => HSimple
  end.

End StmtInduction.

Section DirInduction.

Variable P : dir -> Prop.
Hypothesis HDir : forall subdirs filenames,
  Forall (fun sub => P sub.2) subdirs -> P (Dir subdirs filenames).

Fixpoint dir_nested_ind (d : dir) : P d :=
  match d with
  | Dir subdirs filenames =>
      HDir subdirs filenames
        ((fix all (l : list (string * dir)) : Forall (fun sub => P sub.2) l :=
            match l with
            | [] => @List.Forall_nil _ _
            | sub :: l' =>
                @List.Forall_cons _ (fun sub => P sub.2) sub l'
                  (dir_nested_ind sub.2) (all l')
            end) subdirs)
  end.

End DirInduction.

(** * Properties *)

(** ** The walk over the tree *)


Lemma arg_names_loop (l : list ast.arg_t) (acc : list string) :
  fold_left
    (fun acc x => if String.eqb (ast.arg x) "self" then acc else acc ++ [ast.arg x])
    l acc
  = acc ++ List.filter not_self (map ast.arg l).
Proof.
  revert acc; induction l as [|x l IH]; intros acc; simpl.
  - by rewrite app_nil_r.
  - rewrite IH. unfold not_self at 2.
    destruct (String.eqb (ast.arg x) "self"); simpl; [done|].
    by rewrite <- app_assoc.
Qed.

Lemma arg_names_filter (a : ast.arguments) :
  arg_names a = List.filter not_self (map ast.arg (ast.args a)).
Proof. unfold arg_names. by rewrite arg_names_loop. Qed.

Lemma Forall2_flat_map {A B C : Type} (R : B -> C -> Prop)
    (f : A -> list B) (g : A -> list C) (l : list A) :
  Forall (fun x => Forall2 R (f x) (g x)) l ->
  Forall2 R (flat_map f l) (flat_map g l).
Proof.
  induction 1 as [|x l Hx _ IH]; simpl; [constructor|].
  by apply Forall2_app.
Qed.

(** The walk yields one record for each definition that is reached through
    classes and definitions, in pre-order. *)
Lemma visit_child_reached (file_path : string) (child : ast.stmt) :
  Forall2 (is_record_of file_path) (reached_of child) (visit_child file_path child).
Proof.
  induction child using stmt_nested_ind; simpl; try constructor;
    try done; by apply Forall2_flat_map.
Qed.

Lemma gather_reached (node : ast.node) (file_path : string) :
  Forall2 (is_record_of file_path)
    (reached_definitions node) (_gather_functions node file_path).
Proof.
  apply Forall2_flat_map, Forall_forall. intros; apply visit_child_reached.
Qed.

(** The loop body of [_gather_functions], as the source writes it: the record
    of a definition, followed by the walk below a class or a definition. *)
Lemma visit_child_unfold (file_path : string) (child : ast.stmt) :
  visit_child file_path child =
  (match child with
   | ast.FunctionDef n a body ln col | ast.AsyncFunctionDef n a body ln col =>
       [function_info file_path n a body ln col]
   | _ => []
   end)
  ++ (match child with
      | ast.ClassDef _ _ => _gather_functions (ast.Stmt child) file_path
      | ast.FunctionDef _ _ _ _ _ | ast.AsyncFunctionDef _ _ _ _ _ =>
          _gather_functions (ast.Stmt child) file_path
      | _ => []
      end).
Proof. destruct child; reflexivity. Qed.

(** C1, as amended.  For every scanned definition, the record's parameter
    list is the list of the definition's ordinary parameters ([args.args]) in
    declaration order without the parameters named [self], at whatever
    position they stand: one record per reached definition, and that record's
    [args] is the filtered list. *)
Theorem parameters_omit_every_self (node : ast.node) (file_path : string) :
  Forall2 (fun d info => args info = List.filter not_self (declared_args d))
    (reached_definitions node) (_gather_functions node file_path).
Proof.
  eapply Forall2_impl; [apply gather_reached|].
  intros d info H. destruct d; simpl in *; try done; subst; apply arg_names_filter.
Qed.

(** C1, as stated, fails: a parameter named [self] in second position is
    dropped, where the documented rule keeps it. *)
Lemma later_self_is_dropped :
  ~ (forall file_path n a body ln col,
       args (function_info file_path n a body ln col)
       = first_receiver_omitted (declared_parameters a)).
Proof.
  intros H.
  specialize (H "m.py" "f" (plain_args ["x"; "self"]) [ast.Simple] 1%Z 0%Z).
  vm_compute in H. discriminate H.
Qed.

(** Parameters outside [args.args] are not recorded: for
    [def f(a, /, b, *c, d, **e)] the record lists [b] alone. *)
Lemma only_ordinary_parameters_recorded :
  arg_names
    {| ast.posonlyargs := [ast.Build_arg_t "a"];
       ast.args := [ast.Build_arg_t "b"];
       ast.vararg := Some (ast.Build_arg_t "c");
       ast.kwonlyargs := [ast.Build_arg_t "d"];
       ast.kwarg := Some (ast.Build_arg_t "e") |}
  = ["b"].
Proof. reflexivity. Qed.

(** C7: a definition nested in a conditional is a definition of the file, yet
    the walk, which descends into classes and definitions only, produces no
    record for it. *)
Theorem gather_misses_guarded_definition :
  all_definitions guarded_def
  = [ast.FunctionDef "f" (plain_args []) [ast.Simple] 2 4]
  /\ _gather_functions (ast.Module guarded_def) "m.py" = [].
Proof. split; reflexivity. Qed.

(** ** Scanning files *)

Section ScannerFacts.

Variable ast_parse : string -> ast.parse_result.

Lemma read_text_files path w : files (read_text path w).1 = files w.
Proof. unfold read_text. by destruct (files w !! path). Qed.

Lemma read_text_result path w w' :
  files w = files w' -> (read_text path w).2 = (read_text path w').2.
Proof. unfold read_text. intros ->. by destruct (files w' !! path). Qed.

Lemma scan_python_file_files path w :
  files (scan_python_file ast_parse path w).1 = files w.
Proof.
  unfold scan_python_file, bind.
  pose proof (read_text_files path w) as H.
  destruct (read_text path w) as [w1 [source|e]]; simpl in *; [|done].
  by destruct (ast_parse source).
Qed.

Lemma scan_python_file_result path w w' :
  files w = files w' ->
  (scan_python_file ast_parse path w).2 = (scan_python_file ast_parse path w').2.
Proof.
  intros Hw. unfold scan_python_file, bind.
  pose proof (read_text_result path w w' Hw) as H.
  destruct (read_text path w) as [w1 [source|e]],
           (read_text path w') as [w1' [source'|e']]; simpl in *; simplify_eq; [|done].
  by destruct (ast_parse source').
Qed.

Lemma scan_step_files acc path w : files (scan_step ast_parse acc path w).1 = files w.
Proof.
  unfold scan_step, bind.
  pose proof (scan_python_file_files path w) as H.
  by destruct (scan_python_file ast_parse path w) as [w1 [found|e]].
Qed.


Lemma scan_loop_files paths acc w :
  files (for_each (scan_step ast_parse) paths acc w).1 = files w.
Proof.
  revert acc w; induction paths as [|p paths IH]; intros acc w; simpl; [done|].
  unfold bind. pose proof (scan_step_files acc p w) as H.
  destruct (scan_step ast_parse acc p w) as [w1 [acc1|e]]; simpl in *; [|done].
  by rewrite IH.
Qed.




End ScannerFacts.



(** ** Discovering files *)


Lemma python_files_loop (base : string) (filenames files : list string) :
  fold_left
    (fun files filename =>
       if is_python_file filename then files ++ [path_join base filename] else files)
    filenames files
  = files ++ map (path_join base) (List.filter is_python_file filenames).
Proof.
  revert files; induction filenames as [|f fs IH]; intros files; simpl.
  - by rewrite app_nil_r.
  - rewrite IH. destruct (is_python_file f); simpl; [|done].
    by rewrite <- app_assoc.
Qed.

Lemma find_python_files_walk (root_dir : string) (tree : dir) :
  find_python_files root_dir tree
  = flat_map
      (fun entry : string * list string * list string =>
         map (path_join entry.1.1) (List.filter is_python_file entry.2))
      (os_walk root_dir tree).
Proof.
  unfold find_python_files.
  assert (forall walk files,
    fold_left
      (fun files '(base, _dirs, filenames) =>
         fold_left
           (fun files filename =>
              if is_python_file filename then files ++ [path_join base filename]
              else files)
           filenames files)
      walk files
    = files ++ flat_map
        (fun entry : string * list string * list string =>
         map (path_join entry.1.1) (List.filter is_python_file entry.2))
        walk) as H.
  { induction walk as [|[[base dirs] fns] walk IH]; intros files; simpl.
    - by rewrite app_nil_r.
    - rewrite IH, python_files_loop. by rewrite <- app_assoc. }
  by rewrite H.
Qed.

Lemma os_walk_lies_under (top : string) (d : dir) base dirs filenames :
  In (base, dirs, filenames) (os_walk top d) <->
  exists subdirs, dirs = map fst subdirs /\ lies_under top d base (Dir subdirs filenames).
Proof.
  split.
  - revert top. induction d as [subdirs fns IH] using dir_nested_ind; intros top.
    simpl. intros [E|H].
    + injection E as <- <- <-. exists subdirs. split; [done|constructor].
    + apply in_flat_map in H as [[name sub] [Hin H]].
      rewrite Forall_forall in IH.
      destruct (IH (name, sub) ltac:(by apply list_elem_of_In) _ H)
        as [subs' [-> Hl]].
      exists subs'. split; [done|]. by eapply lies_below.
  - intros [subs [-> H]].
    remember (Dir subs filenames) as d' eqn:E.
    induction H as [top d|top subdirs fns name sub base d' Hin _ IH]; subst.
    + simpl. by left.
    + simpl. right. apply in_flat_map. exists (name, sub). split; [done|]. by apply IH.
Qed.

(** C10: discovery keeps exactly the entries whose own name ends with [.py]
    and does not start with a dot, in whatever directory of the tree they
    lie; the names of the directories above an entry play no part, so the
    Python files of a hidden directory are returned. *)
Theorem discovery_filters_on_basename (root_dir : string) (tree : dir) :
  (forall path,
     In path (find_python_files root_dir tree) <->
     exists base subdirs filenames filename,
       lies_under root_dir tree base (Dir subdirs filenames)
       /\ In filename filenames
       /\ PyStr.endswith filename ".py" = true
       /\ PyStr.startswith filename "." = false
       /\ path = path_join base filename)
  /\ (forall hidden subdirs filenames filename rest files,
        tree = Dir rest files ->
        In (hidden, Dir subdirs filenames) rest ->
        PyStr.startswith hidden "." = true ->
        In filename filenames ->
        is_python_file filename = true ->
        In (path_join (path_join root_dir hidden) filename)
           (find_python_files root_dir tree)).
Proof.
  assert (forall path,
     In path (find_python_files root_dir tree) <->
     exists base subdirs filenames filename,
       lies_under root_dir tree base (Dir subdirs filenames)
       /\ In filename filenames
       /\ PyStr.endswith filename ".py" = true
       /\ PyStr.startswith filename "." = false
       /\ path = path_join base filename) as Hiff.
  { intros path. rewrite find_python_files_walk, in_flat_map. split.
    - intros [[[base dirs] fns] [Hw Hp]]. simpl in Hp.
      apply in_map_iff in Hp as [f [<- Hf]].
      apply filter_In in Hf as [Hf Hpy].
      apply os_walk_lies_under in Hw as [subs [-> Hl]].
      unfold is_python_file in Hpy. apply andb_true_iff in Hpy as [He Hs].
      apply negb_true_iff in Hs. by exists base, subs, fns, f.
    - intros (base & subs & fns & f & Hl & Hf & He & Hs & ->).
      exists (base, map fst subs, fns). split.
      + apply os_walk_lies_under. by exists subs.
      + simpl. apply in_map, filter_In. split; [done|].
        unfold is_python_file. by rewrite He, Hs. }
  split; [done|].
  intros hidden subs fns f rest files -> Hin _ Hf Hpy.
  apply Hiff. exists (path_join root_dir hidden), subs, fns, f.
  unfold is_python_file in Hpy. apply andb_true_iff in Hpy as [He Hs].
  apply negb_true_iff in Hs. repeat split; try done.
  eapply lies_below; [done|constructor].
Qed.

Lemma discovery_filters_on_basename_witness :
  In "/proj/.venv/site.py" (find_python_files "/proj" sample_project)
  /\ ~ In "/proj/.venv/.hidden.py" (find_python_files "/proj" sample_project).
Proof.
  split.
  - apply (proj2 (discovery_filters_on_basename "/proj" sample_project)
             ".venv" [] ["site.py"; ".hidden.py"; "notes.txt"] "site.py"
             [(".venv", Dir [] ["site.py"; ".hidden.py"; "notes.txt"])] ["main.py"]).
    + reflexivity.
    + simpl; auto.
    + reflexivity.
    + simpl; auto.
    + reflexivity.
  - vm_compute. intros [H|[H|[]]]; discriminate H.
Defined.

(** ** Lists: insertion and sorting *)

Section ListFacts.

Context {A : Type}.
Implicit Types (l : list A) (x : A).

Lemma list_insert_in_range l (i : Z) x :
  (0 <= i <= Z.of_nat (length l))%Z ->
  list_insert l i x = insert_at (Z.to_nat i) x l.
Proof.
  intros H. unfold list_insert, insert_at.
  destruct (Z.ltb_spec i 0); [lia|].
  by rewrite Z.min_l by lia.
Qed.

Lemma length_insert_at k x l : length (insert_at k x l) = S (length l).
Proof.
  unfold insert_at. rewrite length_app. simpl.
  rewrite length_take, length_drop. lia.
Qed.

Lemma insert_at_lookup_lt k x l j :
  j < k -> k <= length l -> insert_at k x l !! j = l !! j.
Proof.
  intros Hj Hk. unfold insert_at.
  rewrite lookup_app_l by (rewrite length_take; lia).
  by apply lookup_take_lt.
Qed.

Lemma insert_at_lookup_eq k x l :
  k <= length l -> insert_at k x l !! k = Some x.
Proof.
  intros Hk. unfold insert_at. apply list_lookup_middle.
  rewrite length_take. lia.
Qed.

Lemma insert_at_lookup_gt k x l j :
  k <= j -> k <= length l -> insert_at k x l !! S j = l !! j.
Proof.
  intros Hj Hk. unfold insert_at.
  rewrite lookup_app_r by (rewrite length_take; lia).
  rewrite length_take, Nat.min_l by lia.
  replace (S j - k) with (S (j - k)) by lia. simpl.
  rewrite lookup_drop. f_equal. lia.
Qed.

Lemma take_insert_at m k x l :
  m <= k -> k <= length l -> take m (insert_at k x l) = take m l.
Proof.
  intros Hm Hk. unfold insert_at.
  rewrite take_app_le by (rewrite length_take; lia).
  rewrite take_take. f_equal. lia.
Qed.

Variable leb : A -> A -> bool.

Lemma sorted_insert_perm x l : Permutation (sorted_insert leb x l) (x :: l).
Proof.
  induction l as [|y l IH]; simpl; [done|].
  destruct (leb x y); [done|].
  rewrite IH. apply perm_swap.
Qed.

Lemma sorted_perm l : Permutation (sorted leb l) l.
Proof.
  induction l as [|x l IH]; simpl; [done|].
  rewrite sorted_insert_perm. by constructor.
Qed.

Hypothesis leb_total : forall a b, leb a b = true \/ leb b a = true.
Hypothesis leb_trans : forall a b c, leb a b = true -> leb b c = true -> leb a c = true.

Lemma sorted_insert_sorted x l :
  StronglySorted (fun a b => leb a b = true) l ->
  StronglySorted (fun a b => leb a b = true) (sorted_insert leb x l).
Proof.
  induction 1 as [|y l Hl IH Hy]; simpl.
  - repeat constructor.
  - destruct (leb x y) eqn:E.
    + constructor; [by constructor|].
      constructor; [done|].
      eapply Forall_impl; [exact Hy|]. intros z Hz. by eapply leb_trans.
    + constructor; [done|].
      eapply Permutation_Forall; [symmetry; apply sorted_insert_perm|].
      constructor; [|done].
      destruct (leb_total x y); congruence.
Qed.

Lemma sorted_sorted l : StronglySorted (fun a b => leb a b = true) (sorted leb l).
Proof.
  induction l as [|x l IH]; simpl; [constructor|].
  by apply sorted_insert_sorted.
Qed.

End ListFacts.

Lemma StronglySorted_middle {A : Type} (R : A -> A -> Prop) (p q : list A) (x : A) :
  StronglySorted R (p ++ x :: q) ->
  Forall (fun y => R y x) p /\ Forall (R x) q.
Proof.
  induction p as [|y p IH]; simpl; intros H; apply StronglySorted_inv in H as [H1 H2].
  - split; [constructor|done].
  - destruct (IH H1) as [Hp Hq]. split; [|done].
    constructor; [|done].
    rewrite Forall_forall in H2. apply H2, list_elem_of_In, in_elt.
Qed.

(** ** The order and the place of the insertions *)

Lemma funcs_sorted_perm (funcs : list FunctionInfo) :
  Permutation funcs (funcs_sorted funcs).
Proof. symmetry. apply sorted_perm. Qed.

Lemma StronglySorted_weaken {A : Type} (R R' : A -> A -> Prop) (l : list A) :
  (forall a b, R a b -> R' a b) -> StronglySorted R l -> StronglySorted R' l.
Proof.
  intros HR. induction 1 as [|x l _ IH Hx]; constructor; [done|].
  eapply Forall_impl; [exact Hx|]. intros; by apply HR.
Qed.

Lemma funcs_sorted_descending (funcs : list FunctionInfo) :
  StronglySorted later_line (funcs_sorted funcs).
Proof.
  eapply StronglySorted_weaken; [|apply sorted_sorted].
  - intros f g H. unfold later_line. by apply Z.leb_le.
  - intros a b. rewrite !Z.leb_le. lia.
  - intros a b c. rewrite !Z.leb_le. lia.
Qed.

Lemma insert_step_in_range (lines : list string) (f : FunctionInfo) :
  (0 <= lineno f <= Z.of_nat (length lines))%Z ->
  insert_step lines f = insert_at (Z.to_nat (lineno f)) (stub f) lines.
Proof. apply list_insert_in_range. Qed.

(** Insertions at or below line [L] leave the first [L] lines as they are. *)
Lemma insertions_keep_prefix (rs : list FunctionInfo) (lines : list string) (L : Z) :
  (0 <= L)%Z ->
  Forall (fun f => (L <= lineno f <= Z.of_nat (length lines))%Z) rs ->
  take (Z.to_nat L) (fold_left insert_step rs lines) = take (Z.to_nat L) lines
  /\ length (fold_left insert_step rs lines) = length lines + length rs.
Proof.
  intros HL. revert lines. induction rs as [|f rs IH]; intros lines H; simpl.
  - split; [done|lia].
  - apply Forall_cons in H as [Hf Hrs].
    rewrite insert_step_in_range by lia.
    destruct (IH (insert_at (Z.to_nat (lineno f)) (stub f) lines)) as [IH1 IH2].
    { eapply Forall_impl; [exact Hrs|]. intros g Hg. simpl in Hg.
      rewrite length_insert_at. lia. }
    rewrite IH1, IH2, length_insert_at. split; [|lia].
    apply take_insert_at; lia.
Qed.

(** A line at index [k] moves down by one for each later insertion at or
    above it. *)
Lemma insertions_carry_line (q : list FunctionInfo) (lines : list string) (k : nat) x :
  lines !! k = Some x ->
  Forall (fun f => (0 <= lineno f <= Z.of_nat k)%Z) q ->
  fold_left insert_step q lines !! (k + length q) = Some x.
Proof.
  revert lines k. induction q as [|f q IH]; intros lines k Hk H; simpl.
  - by rewrite Nat.add_0_r.
  - apply Forall_cons in H as [Hf Hq].
    pose proof (lookup_lt_Some _ _ _ Hk) as Hlen.
    rewrite insert_step_in_range by lia.
    replace (k + S (length q)) with (S k + length q) by lia.
    apply IH.
    + rewrite insert_at_lookup_gt by lia. done.
    + eapply Forall_impl; [exact Hq|]. intros g Hg. simpl in Hg. lia.
Qed.

Lemma stubs_above_all (j : nat) (rs : list FunctionInfo) :
  Forall (fun f => (lineno f <= Z.of_nat j)%Z) rs -> stubs_above j rs = length rs.
Proof.
  unfold stubs_above. induction 1 as [|f rs Hf _ IH]; simpl; [done|].
  destruct (Z.leb_spec (lineno f) (Z.of_nat j)); [|lia]. simpl. by rewrite IH.
Qed.

Lemma stubs_above_none (j : nat) (rs : list FunctionInfo) :
  Forall (fun f => (Z.of_nat j < lineno f)%Z) rs -> stubs_above j rs = 0.
Proof.
  unfold stubs_above. induction 1 as [|f rs Hf _ IH]; simpl; [done|].
  destruct (Z.leb_spec (lineno f) (Z.of_nat j)); [lia|done].
Qed.

Lemma stubs_above_app (j : nat) (p q : list FunctionInfo) :
  stubs_above j (p ++ q) = stubs_above j p + stubs_above j q.
Proof. unfold stubs_above. by rewrite List.filter_app, length_app. Qed.

Lemma stubs_above_perm (j : nat) (rs rs' : list FunctionInfo) :
  Permutation rs rs' -> stubs_above j rs = stubs_above j rs'.
Proof.
  unfold stubs_above.
  induction 1 as [|f rs rs' _ IH|f g rs|rs1 rs2 rs3 _ IH1 _ IH2]; simpl; try done.
  - destruct (lineno f <=? Z.of_nat j)%Z; simpl; by rewrite IH.
  - by destruct (lineno f <=? Z.of_nat j)%Z, (lineno g <=? Z.of_nat j)%Z.
  - by rewrite IH1.
Qed.

(** After insertions in descending order of line, each original line lies
    lower by the number of stubs inserted at or above it. *)
Lemma insertions_shift_lines (rs : list FunctionInfo) (lines : list string) :
  StronglySorted later_line rs ->
  Forall (fun f => (0 <= lineno f <= Z.of_nat (length lines))%Z) rs ->
  forall j, j < length lines ->
    fold_left insert_step rs lines !! (j + stubs_above j rs) = lines !! j.
Proof.
  intros Hs. revert lines.
  induction Hs as [|f rs _ IH Hf]; intros lines H j Hj; simpl.
  - unfold stubs_above. simpl. by rewrite Nat.add_0_r.
  - apply Forall_cons in H as [Hr Hrs].
    rewrite insert_step_in_range by lia.
    assert (Forall (fun g => (0 <= lineno g <=
              Z.of_nat (length (insert_at (Z.to_nat (lineno f)) (stub f) lines)))%Z) rs)
      as Hrs'.
    { eapply Forall_impl; [exact Hrs|]. intros g Hg. simpl in Hg.
      rewrite length_insert_at. lia. }
    change (f :: rs) with ([f] ++ rs). rewrite stubs_above_app.
    destruct (Z.leb_spec (lineno f) (Z.of_nat j)) as [Hle|Hgt].
    + replace (stubs_above j [f]) with 1
        by (unfold stubs_above; simpl; destruct (Z.leb_spec (lineno f) (Z.of_nat j));
            [done|lia]).
      assert (Forall (fun g => (lineno g <= Z.of_nat j)%Z) rs) as Hall.
      { eapply Forall_impl; [exact Hf|]. intros g Hg. unfold later_line in Hg. lia. }
      rewrite (stubs_above_all j rs Hall).
      specialize (IH _ Hrs' (S j)). rewrite length_insert_at in IH.
      rewrite stubs_above_all in IH
        by (eapply Forall_impl; [exact Hall|]; intros g Hg; simpl in Hg; lia).
      replace (j + (1 + length rs)) with (S j + length rs) by lia.
      rewrite IH by lia. apply insert_at_lookup_gt; lia.
    + replace (stubs_above j [f]) with 0
        by (unfold stubs_above; simpl; destruct (Z.leb_spec (lineno f) (Z.of_nat j));
            [lia|done]).
      simpl. specialize (IH _ Hrs' j). rewrite length_insert_at in IH.
      rewrite IH by lia. apply insert_at_lookup_lt; lia.
Qed.

(** The places of the stubs in the line array of one file. *)
Lemma insertions_place_stubs (lines : list string) (funcs : list FunctionInfo) :
  Forall (fun f => (1 <= lineno f <= Z.of_nat (length lines))%Z) funcs ->
  Permutation funcs (funcs_sorted funcs)
  /\ StronglySorted later_line (funcs_sorted funcs)
  /\ (forall p f q, funcs_sorted funcs = p ++ f :: q ->
        let L := Z.to_nat (lineno f) in
        let next := insert_step (fold_left insert_step p lines) f in
        next !! L = Some (stub f)
        /\ is_Some (lines !! (L - 1))
        /\ next !! (L - 1) = lines !! (L - 1)
        /\ insert_stubs lines funcs !! (L + length q) = Some (stub f)
        /\ (Forall (fun g => lineno g <> lineno f) q ->
            insert_stubs lines funcs !! (L - 1 + length q) = lines !! (L - 1)))
  /\ (forall j, j < length lines ->
        insert_stubs lines funcs !! (j + stubs_above j funcs) = lines !! j)
  /\ length (insert_stubs lines funcs) = length lines + length funcs.
Proof.
  intros Hin.
  pose proof (funcs_sorted_perm funcs) as Hperm.
  pose proof (funcs_sorted_descending funcs) as Hsorted.
  assert (Forall (fun f => (1 <= lineno f <= Z.of_nat (length lines))%Z)
            (funcs_sorted funcs)) as Hin'
    by (eapply Permutation_Forall; [exact Hperm|exact Hin]).
  assert (Forall (fun f => (0 <= lineno f <= Z.of_nat (length lines))%Z)
            (funcs_sorted funcs)) as Hin0
    by (eapply Forall_impl; [exact Hin'|]; intros g Hg; simpl in Hg; lia).
  split; [done|]. split; [done|]. split; [|split].
  - intros p f q E L next.
    rewrite E in Hsorted, Hin', Hin0.
    apply StronglySorted_middle in Hsorted as [Hp Hq].
    apply Forall_app in Hin' as [Hinp Hinfq].
    apply Forall_cons in Hinfq as [Hinf Hinq].
    destruct (insertions_keep_prefix p lines (lineno f)) as [Hpre Hlen]; [lia| |].
    { rewrite Forall_forall in Hp, Hinp. apply Forall_forall. intros g Hg.
      specialize (Hp g Hg). specialize (Hinp g Hg). unfold later_line in Hp.
      simpl in *. lia. }
    assert (next = insert_at L (stub f) (fold_left insert_step p lines)) as Hnext.
    { subst next L. apply insert_step_in_range. lia. }
    assert (next !! L = Some (stub f)) as Hstub.
    { rewrite Hnext. apply insert_at_lookup_eq. lia. }
    assert (L - 1 < L) as HL by lia.
    split; [done|]. split; [apply lookup_lt_is_Some; lia|]. split; [|split].
    + rewrite Hnext, insert_at_lookup_lt by lia.
      rewrite <- (lookup_take_lt (fold_left insert_step p lines) L (L - 1)) by lia.
      fold L in Hpre. rewrite Hpre. apply lookup_take_lt. lia.
    + unfold insert_stubs. rewrite E, fold_left_app. simpl. fold next.
      apply insertions_carry_line; [done|].
      rewrite Forall_forall in Hq, Hinq. apply Forall_forall. intros g Hg.
      specialize (Hq g Hg). specialize (Hinq g Hg). unfold later_line in Hq.
      simpl in *. lia.
    + intros Hne. unfold insert_stubs.
      assert (stubs_above (L - 1) (funcs_sorted funcs) = length q) as <-.
      { rewrite E. change (f :: q) with ([f] ++ q). rewrite !stubs_above_app.
        rewrite (stubs_above_none _ p), (stubs_above_none _ [f]), stubs_above_all; [done|..].
        - rewrite Forall_forall in Hq, Hne. apply Forall_forall. intros g Hg.
          specialize (Hq g Hg). specialize (Hne g Hg). unfold later_line in Hq. lia.
        - repeat constructor. lia.
        - rewrite Forall_forall in Hp. apply Forall_forall. intros g Hg.
          specialize (Hp g Hg). unfold later_line in Hp. lia. }
      rewrite <- E in Hin0.
      apply insertions_shift_lines; [apply funcs_sorted_descending|done|lia].
  - intros j Hj. unfold insert_stubs.
    rewrite (stubs_above_perm j _ _ Hperm).
    by apply insertions_shift_lines.
  - unfold insert_stubs.
    destruct (insertions_keep_prefix (funcs_sorted funcs) lines 0) as [_ ->];
      [lia| |].
    + eapply Forall_impl; [exact Hin0|]. intros g Hg. simpl in Hg. lia.
    + by rewrite <- (Permutation_length Hperm).
Qed.

(** X21: on the line array of one file (the loop of lines 129-136), when the
    eligible records have their headers at lines of the array, the records are
    processed in descending order of header line; the stub of a record with
    header line [L] is put at zero-based index [L], the header line before it
    being the original one; in the result that stub lies below index [L] by
    the number of records processed after it, directly after its header when
    no other record shares the header line; and every original line lies lower
    by one line per stub inserted at or above it. *)
Theorem stub_follows_header (lines : list string) (funcs : list FunctionInfo) :
  Forall (fun f => (1 <= lineno f <= Z.of_nat (length lines))%Z) funcs ->
  Permutation funcs (funcs_sorted funcs)
  /\ StronglySorted later_line (funcs_sorted funcs)
  /\ (forall p f q, funcs_sorted funcs = p ++ f :: q ->
        let L := Z.to_nat (lineno f) in
        let next := insert_step (fold_left insert_step p lines) f in
        next !! L = Some (stub f)
        /\ is_Some (lines !! (L - 1))
        /\ next !! (L - 1) = lines !! (L - 1)
        /\ insert_stubs lines funcs !! (L + length q) = Some (stub f)
        /\ (Forall (fun g => lineno g <> lineno f) q ->
            insert_stubs lines funcs !! (L - 1 + length q) = lines !! (L - 1)))
  /\ (forall j, j < length lines ->
        insert_stubs lines funcs !! (j + stubs_above j funcs) = lines !! j)
  /\ length (insert_stubs lines funcs) = length lines + length funcs.
Proof. apply insertions_place_stubs. Qed.

Lemma stub_follows_header_witness :
  Forall (fun f => (1 <= lineno f <= Z.of_nat (length sample_lines))%Z) sample_records
  /\ length (insert_stubs sample_lines sample_records) = 7.
Proof.
  assert (Forall (fun f => (1 <= lineno f <= Z.of_nat (length sample_lines))%Z)
            sample_records) as H
    by (repeat constructor; simpl; lia).
  split; [exact H|].
  exact (proj2 (proj2 (proj2 (proj2 (stub_follows_header sample_lines sample_records H))))).
Defined.

(** ** The files that the inserter touches *)

Lemma setdefault_append_keys {A : Type} (d : list (string * list A)) key (x : A) k :
  In k (map fst (setdefault_append d key x)) <-> In k (map fst d) \/ k = key.
Proof.
  induction d as [|[k' xs] d IH]; simpl.
  - split; [intros [<-|[]]; by right|intros [[]| ->]; by left].
  - destruct (String.eqb_spec k' key) as [->|Hne]; simpl.
    + split; [tauto|]. intros [H| ->]; [done|by left].
    + rewrite IH. tauto.
Qed.

Lemma setdefault_append_NoDup {A : Type} (d : list (string * list A)) key (x : A) :
  List.NoDup (map fst d) -> List.NoDup (map fst (setdefault_append d key x)).
Proof.
  induction d as [|[k xs] d IH]; simpl; intros Hnd.
  - repeat constructor. intros [].
  - destruct (String.eqb_spec k key) as [->|Hne]; [done|].
    apply List.NoDup_cons_iff in Hnd as [Hnot Hnd]. simpl.
    apply List.NoDup_cons_iff. split; [|by apply IH].
    rewrite setdefault_append_keys. tauto.
Qed.

Lemma functions_by_file_loop_keys (functions : list FunctionInfo) d k :
  In k (map fst
          (fold_left
             (fun d func =>
                match docstring func with
                | None => setdefault_append d (file_path func) func
                | Some _ => d
                end) functions d)) ->
  In k (map fst d)
  \/ exists f, In f functions /\ docstring f = None /\ file_path f = k.
Proof.
  revert d. induction functions as [|f fs IH]; intros d; simpl; [by left|].
  intros H. apply IH in H as [H|(g & Hg & Hd & Hp)].
  - destruct (docstring f) eqn:E; [by left|].
    apply setdefault_append_keys in H as [H| ->]; [by left|].
    right. exists f. auto.
  - right. exists g. auto.
Qed.

Lemma functions_by_file_keys (functions : list FunctionInfo) k :
  In k (map fst (functions_by_file functions)) ->
  exists f, In f functions /\ docstring f = None /\ file_path f = k.
Proof.
  intros H. apply functions_by_file_loop_keys in H as [[]|H]. done.
Qed.

Lemma functions_by_file_undocumented (functions : list FunctionInfo) :
  functions_by_file functions = functions_by_file (List.filter undocumented functions).
Proof.
  unfold functions_by_file. generalize (@nil (string * list FunctionInfo)).
  induction functions as [|f fs IH]; intros d; simpl; [done|].
  unfold undocumented at 1.
  destruct (docstring f) eqn:E; simpl; [apply IH|].
  rewrite E. apply IH.
Qed.

Lemma patch_file_eq (count : Z) (path : string) (funcs : list FunctionInfo) (w : world) :
  patch_file count (path, funcs) w =
  match files w !! path with
  | Some text =>
      ({| files :=
            <[path := String.concat ""
                        (insert_stubs (lines_of (universal_newlines text)) funcs)]>
              (files w);
          log := (log w ++ [EvRead path]) ++ [EvWrite path] |},
       Ok (count + Z.of_nat (length (funcs_sorted funcs)))%Z)
  | None =>
      ({| files := files w; log := log w ++ [EvRead path] |},
       Raise (FileNotFoundError path))
  end.
Proof.
  unfold patch_file, readlines, writelines, bind, read_text, write_text, ret.
  by destruct (files w !! path).
Qed.

Lemma for_each_cons {A S : Type} (body : S -> A -> IO S) (x : A) (xs : list A)
    (s : S) (w : world) :
  for_each body (x :: xs) s w =
  match body s x w with
  | (w', Ok s') => for_each body xs s' w'
  | (w', Raise e) => (w', Raise e)
  end.
Proof. reflexivity. Qed.

(** The loop over the files leaves alone every file that is not among its
    items, whether it ends normally or with an exception. *)
Lemma patch_loop_frame (items : list (string * list FunctionInfo)) (count : Z)
    (w : world) (path : string) :
  ~ In path (map fst items) ->
  files (for_each patch_file items count w).1 !! path = files w !! path
  /\ exists new,
       log (for_each patch_file items count w).1 = log w ++ new
       /\ Forall (fun e => ~ touches path e) new.
Proof.
  revert count w. induction items as [|[p funcs] items IH]; intros count w Hnot.
  - simpl. split; [done|]. exists []. by rewrite app_nil_r.
  - simpl in Hnot. rewrite for_each_cons, patch_file_eq.
    assert (p <> path) as Hne by tauto.
    assert (~ In path (map fst items)) as Hnot' by tauto.
    assert (forall e, touches p e -> ~ touches path e) as Hev
      by (intros e [->| ->] [H|H]; congruence).
    destruct (files w !! p) as [text|]; simpl.
    + match goal with |- context [for_each patch_file items ?c ?w1] =>
        destruct (IH c w1 Hnot') as [IHf [new [IHl IHn]]] end.
      rewrite IHf, IHl. simpl. split; [by apply lookup_insert_ne|].
      exists ([EvRead p; EvWrite p] ++ new). split.
      * by rewrite <- !app_assoc.
      * apply Forall_app. split; [|done].
        repeat constructor; apply Hev; [by left|by right].
    + split; [done|]. exists [EvRead p]. split; [done|].
      repeat constructor. apply Hev. by left.
Qed.

(** C6: the inserter works from the undocumented records alone, and a file
    none of whose records lacks documentation (or that has no record) is
    neither read nor written; its contents stay as they were, also when the
    run ends with an exception on another file. *)
Theorem documented_files_untouched
    (functions : list FunctionInfo) (w : world) (path : string) :
  (forall f, In f functions -> file_path f = path -> docstring f <> None) ->
  let w' := (insert_missing_docstrings functions w).1 in
  files w' !! path = files w !! path
  /\ (exists new, log w' = log w ++ new /\ Forall (fun e => ~ touches path e) new)
  /\ insert_missing_docstrings functions
     = insert_missing_docstrings (List.filter undocumented functions).
Proof.
  intros H w'.
  assert (~ In path (map fst (functions_by_file functions))) as Hnot.
  { intros Hin. apply functions_by_file_keys in Hin as (f & Hf & Hd & Hp).
    by apply (H f Hf Hp). }
  destruct (patch_loop_frame (functions_by_file functions) 0 w path Hnot) as [Hf Hl].
  split; [exact Hf|]. split; [exact Hl|].
  unfold insert_missing_docstrings. by rewrite <- functions_by_file_undocumented.
Qed.

Lemma documented_files_untouched_witness :
  (forall f, In f mixed_records -> file_path f = "lib.py" -> docstring f <> None)
  /\ files (insert_missing_docstrings mixed_records mixed_world).1 !! "lib.py"
     = files mixed_world !! "lib.py".
Proof.
  assert (forall f, In f mixed_records -> file_path f = "lib.py" -> docstring f <> None)
    as H.
  { intros f [<-|[<-|[]]]; simpl; [discriminate|]. intros E. discriminate E. }
  split; [exact H|].
  exact (proj1 (documented_files_untouched mixed_records mixed_world "lib.py" H)).
Defined.

(** ** What the inserter writes *)

Lemma group_of_setdefault_append {A : Type} (d : list (string * list A)) key (x : A) k :
  group_of (setdefault_append d key x) k
  = if String.eqb key k then group_of d k ++ [x] else group_of d k.
Proof.
  unfold group_of. induction d as [|[k' xs] d IH]; simpl.
  - by destruct (String.eqb key k).
  - destruct (String.eqb_spec k' key) as [->|Hne]; simpl.
    + by destruct (String.eqb key k).
    + destruct (String.eqb_spec k' k) as [->|Hne'].
      * by rewrite (proj2 (String.eqb_neq key k)) by congruence.
      * apply IH.
Qed.

Lemma functions_by_file_loop_group (functions : list FunctionInfo) d k :
  group_of
    (fold_left
       (fun d func =>
          match docstring func with
          | None => setdefault_append d (file_path func) func
          | Some _ => d
          end) functions d) k
  = group_of d k ++ List.filter (eligible_in k) functions.
Proof.
  revert d. induction functions as [|f fs IH]; intros d; simpl.
  - by rewrite app_nil_r.
  - rewrite IH. unfold eligible_in at 2, undocumented.
    destruct (docstring f); simpl; [done|].
    rewrite group_of_setdefault_append.
    destruct (String.eqb (file_path f) k); [|done].
    by rewrite <- app_assoc.
Qed.

(** The group of a file holds its undocumented records, in the order of the
    input. *)
Lemma functions_by_file_group (functions : list FunctionInfo) k :
  group_of (functions_by_file functions) k = List.filter (eligible_in k) functions.
Proof. unfold functions_by_file. by rewrite functions_by_file_loop_group. Qed.

Lemma functions_by_file_NoDup (functions : list FunctionInfo) :
  List.NoDup (map fst (functions_by_file functions)).
Proof.
  unfold functions_by_file.
  assert (List.NoDup (map fst (@nil (string * list FunctionInfo)))) as H
    by constructor.
  revert H. generalize (@nil (string * list FunctionInfo)).
  induction functions as [|f fs IH]; intros d Hd; simpl; [done|].
  destruct (docstring f); apply IH; [done|]. by apply setdefault_append_NoDup.
Qed.

Lemma group_of_head {A : Type} (k : string) (xs : list A) (d : list (string * list A)) :
  group_of ((k, xs) :: d) k = xs.
Proof. unfold group_of. simpl. by rewrite String.eqb_refl. Qed.

Lemma group_of_tail {A : Type} (k k' : string) (xs : list A) (d : list (string * list A)) :
  k <> k' -> group_of ((k, xs) :: d) k' = group_of d k'.
Proof.
  intros H. unfold group_of. simpl.
  by rewrite (proj2 (String.eqb_neq k k')).
Qed.

Lemma group_of_missing {A : Type} (k : string) (d : list (string * list A)) :
  ~ In k (map fst d) -> group_of d k = [].
Proof.
  unfold group_of. induction d as [|[k' xs] d IH]; simpl; [done|].
  intros H. destruct (String.eqb_spec k' k) as [->|Hne]; [tauto|].
  apply IH. tauto.
Qed.

(** When every file of the loop is there, the loop ends normally: each file
    of an item holds its patched text, every other file is as before, and the
    count grows by the number of records. *)
Lemma patch_loop_ok (items : list (string * list FunctionInfo)) (count : Z) (w : world) :
  List.NoDup (map fst items) ->
  (forall k, In k (map fst items) -> is_Some (files w !! k)) ->
  exists w',
    for_each patch_file items count w
    = (w', Ok (count + Z.of_nat (length (flat_map snd items)))%Z)
    /\ forall path,
         files w' !! path
         = if bool_decide (path ∈ map fst items)
           then (fun text => patched text (group_of items path)) <$> files w !! path
           else files w !! path.
Proof.
  revert count w. induction items as [|[p funcs] items IH]; intros count w Hnd Hex.
  - exists w. split; [simpl; unfold ret; by rewrite Z.add_0_r|].
    intros path. rewrite bool_decide_eq_false_2; [done|]. by intros ?%elem_of_nil.
  - simpl in Hnd. apply List.NoDup_cons_iff in Hnd as [Hp Hnd].
    rewrite for_each_cons, patch_file_eq.
    destruct (Hex p (or_introl eq_refl)) as [text Ht]. rewrite Ht.
    match goal with |- context [for_each patch_file items ?c ?w1] =>
      destruct (IH c w1 Hnd) as (w' & Hrun & Hfiles) end.
    { intros k Hk. simpl. rewrite lookup_insert_ne; [apply Hex; by right|].
      intros ->. done. }
    exists w'. split.
    + rewrite Hrun. f_equal. f_equal. simpl. rewrite length_app.
      rewrite (Permutation_length (funcs_sorted_perm funcs)). lia.
    + intros path. rewrite Hfiles. simpl files. simpl map.
      destruct (decide (p = path)) as [<-|Hne].
      * rewrite bool_decide_eq_false_2 by (by rewrite list_elem_of_In).
        rewrite bool_decide_eq_true_2 by (by left).
        by rewrite lookup_insert_eq, Ht, group_of_head.
      * rewrite lookup_insert_ne by done. rewrite group_of_tail by done.
        destruct (decide (path ∈ map fst items)) as [Hin|Hnin].
        -- rewrite !bool_decide_eq_true_2; [done|by right|done].
        -- rewrite !bool_decide_eq_false_2; [done| |done].
           intros [?|?]%elem_of_cons; done.
Qed.

Lemma functions_by_file_total (functions : list FunctionInfo) :
  length (flat_map snd (functions_by_file functions))
  = length (List.filter undocumented functions).
Proof.
  unfold functions_by_file.
  assert (forall {A} (d : list (string * list A)) k x,
            length (flat_map snd (setdefault_append d k x))
            = S (length (flat_map snd d))) as Hstep.
  { intros A d k x. induction d as [|[k' xs] d IH]; simpl; [done|].
    destruct (String.eqb k' k); simpl; rewrite !length_app; [|rewrite IH]; simpl; lia. }
  assert (forall fs d,
            length (flat_map snd
                      (fold_left
                         (fun d func =>
                            match docstring func with
                            | None => setdefault_append d (file_path func) func
                            | Some _ => d
                            end) fs d))
            = length (flat_map snd d) + length (List.filter undocumented fs)) as H.
  { induction fs as [|f fs IH]; intros d; simpl; [lia|].
    rewrite IH. unfold undocumented at 2.
    destruct (docstring f); simpl; [lia|]. rewrite Hstep. lia. }
  by rewrite H.
Qed.

(** The effect of [insert_missing_docstrings] when the files of the
    undocumented records exist: it returns the number of undocumented records,
    and each file holds the text patched with the stubs of its own
    undocumented records. *)
Lemma rewritten_file_contents (functions : list FunctionInfo) (w : world) :
  (forall f, In f functions -> docstring f = None -> is_Some (files w !! file_path f)) ->
  exists w',
    insert_missing_docstrings functions w
    = (w', Ok (Z.of_nat (length (List.filter undocumented functions))))
    /\ forall path,
         files w' !! path
         = match List.filter (eligible_in path) functions with
           | [] => files w !! path
           | funcs => (fun text => patched text funcs) <$> files w !! path
           end.
Proof.
  intros Hex. unfold insert_missing_docstrings.
  destruct (patch_loop_ok (functions_by_file functions) 0 w
              (functions_by_file_NoDup functions)) as (w' & Hrun & Hfiles).
  { intros k Hk. apply functions_by_file_keys in Hk as (f & Hf & Hd & <-). eauto. }
  exists w'. rewrite Hrun, functions_by_file_total. split; [done|].
  intros path. rewrite Hfiles, functions_by_file_group.
  destruct (decide (path ∈ map fst (functions_by_file functions))) as [Hin|Hnin].
  - rewrite bool_decide_eq_true_2 by done.
    destruct (List.filter (eligible_in path) functions) eqn:E; [|done].
    apply list_elem_of_In, functions_by_file_keys in Hin as (f & Hf & Hd & <-).
    assert (In f (List.filter (eligible_in (file_path f)) functions)) as Hf'.
    { apply filter_In. split; [done|]. unfold eligible_in, undocumented.
      by rewrite Hd, String.eqb_refl. }
    rewrite E in Hf'. destruct Hf'.
  - rewrite bool_decide_eq_false_2 by done.
    rewrite <- functions_by_file_group, group_of_missing; [done|].
    by rewrite <- list_elem_of_In.
Qed.

(** Records that all have documentation cause no access to any file. *)
Lemma nothing_to_insert (functions : list FunctionInfo) (w : world) :
  Forall (fun f => docstring f <> None) functions ->
  insert_missing_docstrings functions w = (w, Ok 0%Z).
Proof.
  intros H. unfold insert_missing_docstrings.
  rewrite functions_by_file_undocumented.
  replace (List.filter undocumented functions) with (@nil FunctionInfo); [done|].
  induction H as [|f fs Hf _ IH]; simpl; [done|].
  unfold undocumented at 1. by destruct (docstring f).
Qed.

(** ** Two insertion passes *)

Lemma scan_parsed ast_parse (path text : string) (tree : list ast.stmt) (w : world) :
  files w !! path = Some text ->
  ast_parse (universal_newlines text) = ast.Parsed tree ->
  scan_python_file ast_parse path w
  = ({| files := files w; log := log w ++ [EvRead path] |},
     Ok (_gather_functions (ast.Module tree) path)).
Proof.
  intros Hf Hp. unfold scan_python_file, bind, read_text. by rewrite Hf, Hp.
Qed.

(** C2: on a definition whose header spans two lines, the stub lands inside
    the header, the text stays well-formed and the definition stays
    undocumented; the second pass inserts one more stub and rewrites the
    file. *)
Theorem second_pass_inserts_again (ast_parse : string -> ast.parse_result) :
  ast_parse multiline_header_source = ast.Parsed multiline_header_tree ->
  ast_parse multiline_header_stubbed = ast.Parsed multiline_header_tree ->
  let first := insertion_pass ast_parse ["m.py"] multiline_header_world in
  let second := insertion_pass ast_parse ["m.py"] first.1 in
  first.2 = Ok 1%Z
  /\ files first.1 !! "m.py" = Some multiline_header_stubbed
  /\ second.2 = Ok 1%Z
  /\ files second.1 !! "m.py" <> files first.1 !! "m.py".
Proof.
  intros H0 H1.
  assert (insertion_pass ast_parse ["m.py"] multiline_header_world
          = ({| files := {[ "m.py" := multiline_header_stubbed ]};
                log := [EvRead "m.py"; EvRead "m.py"; EvWrite "m.py"] |}, Ok 1%Z))
    as E1.
  { unfold insertion_pass, scan_files, bind. rewrite for_each_cons.
    unfold scan_step, bind.
    rewrite (scan_parsed ast_parse "m.py" multiline_header_source
               multiline_header_tree) by (reflexivity || exact H0).
    simpl for_each. unfold ret.
    unfold insert_missing_docstrings. simpl functions_by_file.
    vm_compute. reflexivity. }
  intros first second. subst second first. rewrite E1. simpl fst.
  split; [done|]. split; [reflexivity|].
  assert (insertion_pass ast_parse ["m.py"]
            {| files := {[ "m.py" := multiline_header_stubbed ]};
               log := [EvRead "m.py"; EvRead "m.py"; EvWrite "m.py"] |}
          = ({| files :=
                  {[ "m.py" :=
                       String.concat ""
                         (insert_stubs (lines_of multiline_header_stubbed)
                            (_gather_functions (ast.Module multiline_header_tree) "m.py")) ]};
                log := [EvRead "m.py"; EvRead "m.py"; EvWrite "m.py";
                        EvRead "m.py"; EvRead "m.py"; EvWrite "m.py"] |}, Ok 1%Z))
    as E2.
  { unfold insertion_pass, scan_files, bind. rewrite for_each_cons.
    unfold scan_step, bind.
    rewrite (scan_parsed ast_parse "m.py" multiline_header_stubbed
               multiline_header_tree) by (reflexivity || exact H1).
    simpl for_each. unfold ret.
    unfold insert_missing_docstrings. simpl functions_by_file.
    vm_compute. reflexivity. }
  rewrite E2. split; [done|]. vm_compute. discriminate.
Qed.

Lemma second_pass_inserts_again_witness :
  sample_parse multiline_header_source = ast.Parsed multiline_header_tree
  /\ sample_parse multiline_header_stubbed = ast.Parsed multiline_header_tree
  /\ (insertion_pass sample_parse ["m.py"]
        (insertion_pass sample_parse ["m.py"] multiline_header_world).1).2 = Ok 1%Z.
Proof.
  split; [reflexivity|]. split; [reflexivity|].
  exact (proj1 (proj2 (proj2
           (second_pass_inserts_again sample_parse eq_refl eq_refl)))).
Defined.

(** ** Strings: occurrences and splitting *)

Lemma str_app_nil_l (s : string) : "" +:+ s = s.
Proof. reflexivity. Qed.

Lemma str_app_cons (c : ascii) (s t : string) : String c s +:+ t = String c (s +:+ t).
Proof. reflexivity. Qed.

Lemma str_app_nil_r (s : string) : s +:+ "" = s.
Proof. induction s as [|c s IH]; [done|]. by rewrite str_app_cons, IH. Qed.

Lemma str_app_assoc (s t u : string) : (s +:+ t) +:+ u = s +:+ t +:+ u.
Proof. induction s as [|c s IH]; [done|]. by rewrite !str_app_cons, IH. Qed.

Lemma str_length_app (s t : string) :
  String.length (s +:+ t) = String.length s + String.length t.
Proof. induction s as [|c s IH]; [done|]. rewrite str_app_cons. simpl. by rewrite IH. Qed.

Lemma prefix_nil (s : string) : String.prefix "" s = true.
Proof. by destruct s. Qed.

Lemma prefix_cons (c d : ascii) (p s : string) :
  String.prefix (String c p) (String d s) = true <-> c = d /\ String.prefix p s = true.
Proof.
  simpl. destruct (ascii_dec c d) as [->|Hne]; [tauto|].
  split; [discriminate|]. intros [? _]. done.
Qed.

Lemma prefix_occurs (p s : string) :
  String.prefix p s = true <-> exists a, s = p +:+ a.
Proof.
  revert s. induction p as [|c p IH]; intros s.
  - rewrite prefix_nil. split; [|done]. intros _. by exists s.
  - destruct s as [|d s].
    + split; [discriminate|]. intros [a H]. rewrite str_app_cons in H. discriminate H.
    + rewrite prefix_cons, IH. split.
      * intros [-> [a ->]]. by exists a.
      * intros [a H]. rewrite str_app_cons in H. injection H as -> ->. eauto.
Qed.

Lemma drop_app (p a : string) : PyStr.drop (String.length p) (p +:+ a) = a.
Proof. induction p as [|c p IH]; [by destruct a|]. by rewrite str_app_cons. Qed.

Lemma prefix_split (p s : string) :
  String.prefix p s = true -> s = p +:+ PyStr.drop (String.length p) s.
Proof. intros [a ->]%prefix_occurs. by rewrite drop_app. Qed.

Lemma cut_first (sep s b a : string) :
  PyStr.cut sep s = Some (b, a) -> first_occurrence sep s b a.
Proof.
  revert b a. induction s as [|c s IH]; intros b a; rewrite PyStr.cut_eq;
    destruct (String.prefix sep _) eqn:E.
  - intros [= <- <-]. split; [by apply prefix_split|]. intros; simpl; lia.
  - discriminate.
  - intros [= <- <-]. split; [by apply prefix_split|]. intros; simpl; lia.
  - destruct (PyStr.cut sep s) as [[b0 a0]|] eqn:C; [|discriminate].
    intros [= <- <-]. destruct (IH _ _ eq_refl) as [-> Hmin].
    split; [done|]. intros b' a' H. destruct b' as [|c' b'].
    + rewrite str_app_nil_l in H.
      assert (String.prefix sep (String c (b0 +:+ sep +:+ a0)) = true) as E'
        by (apply prefix_occurs; eauto).
      congruence.
    + rewrite str_app_cons in H. injection H as -> H.
      apply Hmin in H. simpl. lia.
Qed.

Lemma cut_occurs (sep s : string) :
  occurs sep s <-> exists b a, PyStr.cut sep s = Some (b, a).
Proof.
  split.
  - intros (b & a & ->). induction b as [|c b IH]; rewrite PyStr.cut_eq.
    + rewrite str_app_nil_l.
      replace (String.prefix sep (sep +:+ a)) with true
        by (symmetry; apply prefix_occurs; eauto).
      eauto.
    + rewrite str_app_cons. destruct (String.prefix sep _); [eauto|].
      destruct IH as (b' & a' & ->). eauto.
  - intros (b & a & H). apply cut_first in H as [-> _]. by exists b, a.
Qed.

Lemma contains_eq (sub s : string) :
  PyStr.contains sub s =
  String.prefix sub s
  || match s with
     | EmptyString => false
     | String _ s' => PyStr.contains sub s'
     end.
Proof. by destruct s. Qed.

Lemma contains_occurs (sub s : string) :
  PyStr.contains sub s = true <-> occurs sub s.
Proof.
  split.
  - induction s as [|c s IH]; rewrite contains_eq; intros H;
      apply orb_true_iff in H as [H|H].
    + apply prefix_occurs in H as [a ->]. by exists "", a.
    + discriminate.
    + apply prefix_occurs in H as [a ->]. by exists "", a.
    + destruct (IH H) as (b & a & ->). by exists (String c b), a.
  - intros (b & a & ->). induction b as [|c b IH]; rewrite contains_eq.
    + rewrite str_app_nil_l.
      assert (String.prefix sub (sub +:+ a) = true) as -> by (apply prefix_occurs; eauto).
      done.
    + rewrite str_app_cons, IH. apply orb_true_r.
Qed.

Lemma split_at_eq (c : ascii) (sep' s : string) :
  PyStr.split_at c sep' s =
  match PyStr.cut (String c sep') s with
  | Some (b, a) => b :: PyStr.split_at c sep' a
  | None => [s]
  end.
Proof.
  assert (forall o (e : PyStr.cut (String c sep') s = o),
    PyStr.split_at_unfold_clause_1 c sep' s (exist _ o e) =
    match o with
    | Some (b, a) => b :: PyStr.split_at c sep' a
    | None => [s]
    end) as H by (intros [[b a]|] e; reflexivity).
  rewrite PyStr.split_at_equation_1. unfold PyStr.inspect. apply H.
Qed.

(** ** Splicing the reference into the document *)

Lemma new_contents_replace (contents api b1 a1 b2 a2 : string) :
  PyStr.cut start_marker contents = Some (b1, a1) ->
  PyStr.cut end_marker contents = Some (b2, a2) ->
  new_contents contents api
  = Ok (b1 +:+ api +:+ match PyStr.cut end_marker a2 with
                       | Some (b3, _) => b3
                       | None => a2
                       end).
Proof.
  intros H1 H2. unfold new_contents.
  assert (PyStr.contains start_marker contents = true) as ->
    by (apply contains_occurs, cut_occurs; eauto).
  assert (PyStr.contains end_marker contents = true) as ->
    by (apply contains_occurs, cut_occurs; eauto).
  unfold str_split, PyStr.split, start_marker, end_marker in *. simpl andb. cbv iota.
  rewrite (split_at_eq _ _ contents), H1.
  rewrite (split_at_eq _ _ contents), H2.
  rewrite (split_at_eq _ _ a2).
  by destruct (PyStr.cut _ a2) as [[b3 a3]|].
Qed.

Lemma new_contents_append (contents api : string) :
  ~ (occurs start_marker contents /\ occurs end_marker contents) ->
  new_contents contents api = Ok (with_final_newline contents +:+ api +:+ newline).
Proof.
  intros H. unfold new_contents.
  destruct (PyStr.contains start_marker contents) eqn:E1,
           (PyStr.contains end_marker contents) eqn:E2; try done.
  exfalso. apply H. by rewrite <- !contains_occurs.
Qed.

Lemma update_readme_existing relpath splitlines strip
    (project_root : string) (functions : list FunctionInfo) (w : world)
    (text new : string) (api_lines : list string) :
  files w !! path_join project_root "README.md" = Some text ->
  generate_api_reference relpath splitlines strip functions = Ok api_lines ->
  new_contents (universal_newlines text) (api_content api_lines) = Ok new ->
  update_readme relpath splitlines strip project_root functions w
  = ({| files := <[path_join project_root "README.md" := new]> (files w);
        log := (log w ++ [EvRead (path_join project_root "README.md")])
               ++ [EvWrite (path_join project_root "README.md")] |}, Ok tt).
Proof.
  intros Hf Hg Hn.
  unfold update_readme, bind, path_exists, read_text, lift, write_text.
  rewrite Hf. rewrite bool_decide_eq_true_2 by eauto.
  cbv beta iota zeta. rewrite Hf. cbv beta iota zeta. rewrite Hg.
  cbv beta iota zeta. by rewrite Hn.
Qed.

(** C9: the markers are looked for as substrings of the text that was read.
    When both occur, wherever they stand, the document is rewritten as the
    text before the first occurrence of the start marker, the rendered block,
    and the text that follows the first occurrence of the end marker up to
    the next occurrence of the end marker, or up to the end when there is
    none.  Otherwise the block is appended. *)
Theorem markers_found_as_substrings relpath splitlines strip
    (project_root : string) (functions : list FunctionInfo) (w : world)
    (text : string) (api_lines : list string) :
  let readme := path_join project_root "README.md" in
  let contents := universal_newlines text in
  let block := api_content api_lines in
  let w' := (update_readme relpath splitlines strip project_root functions w).1 in
  files w !! readme = Some text ->
  generate_api_reference relpath splitlines strip functions = Ok api_lines ->
  (occurs start_marker contents -> occurs end_marker contents ->
   exists before rest pre after tail,
     first_occurrence start_marker contents before rest
     /\ first_occurrence end_marker contents pre (after +:+ tail)
     /\ (tail = "" /\ ~ occurs end_marker after
         \/ exists tail', tail = end_marker +:+ tail'
              /\ first_occurrence end_marker (after +:+ tail) after tail')
     /\ files w' !! readme = Some (before +:+ block +:+ after))
  /\ (~ (occurs start_marker contents /\ occurs end_marker contents) ->
      files w' !! readme = Some (with_final_newline contents +:+ block +:+ newline)).
Proof.
  intros readme contents block w' Hf Hg. split.
  - intros Hs He.
    apply cut_occurs in Hs as (b1 & a1 & H1).
    apply cut_occurs in He as (b2 & a2 & H2).
    pose proof (new_contents_replace contents block _ _ _ _ H1 H2) as Hn.
    subst w'. 
    destruct (PyStr.cut end_marker a2) as [[b3 a3]|] eqn:H3.
    + rewrite (update_readme_existing _ _ _ _ _ _ _ _ _ Hf Hg Hn). simpl.
      pose proof (cut_first _ _ _ _ H3) as [E3 M3].
      exists b1, a1, b2, b3, (end_marker +:+ a3).
      split; [by apply cut_first|]. split; [rewrite <- E3; by apply cut_first|].
      split; [|by apply lookup_insert_eq].
      right. exists a3. split; [done|]. by rewrite <- E3.
    + rewrite (update_readme_existing _ _ _ _ _ _ _ _ _ Hf Hg Hn). simpl.
      exists b1, a1, b2, a2, "".
      split; [by apply cut_first|].
      split; [rewrite str_app_nil_r; by apply cut_first|].
      split; [|by apply lookup_insert_eq].
      left. split; [done|]. intros Ho. apply cut_occurs in Ho as (? & ? & Ho).
      congruence.
  - intros Hno. pose proof (new_contents_append contents block Hno) as Hn.
    subst w'. rewrite (update_readme_existing _ _ _ _ _ _ _ _ _ Hf Hg Hn). simpl.
    by apply lookup_insert_eq.
Qed.

Lemma markers_found_as_substrings_witness :
  files inline_markers_world !! path_join "proj" "README.md" = Some inline_markers_readme
  /\ generate_api_reference (fun p => p) (fun s => [s]) (fun s => s) [] = Ok []
  /\ occurs start_marker (universal_newlines inline_markers_readme)
  /\ occurs end_marker (universal_newlines inline_markers_readme)
  /\ exists before after,
       files (update_readme (fun p => p) (fun s => [s]) (fun s => s) "proj" []
                inline_markers_world).1 !! path_join "proj" "README.md"
       = Some (before +:+ api_content [] +:+ after).
Proof.
  assert (files inline_markers_world !! path_join "proj" "README.md"
          = Some inline_markers_readme) as H1 by reflexivity.
  assert (generate_api_reference (fun p => p) (fun s => [s]) (fun s => s) [] = Ok [])
    as H2 by reflexivity.
  assert (occurs start_marker (universal_newlines inline_markers_readme)) as H3
    by (exists "intro ", ("stale<!-- DOCS END --> outro" +:+ newline); reflexivity).
  assert (occurs end_marker (universal_newlines inline_markers_readme)) as H4
    by (exists "intro <!-- DOCS START -->stale", (" outro" +:+ newline); reflexivity).
  split; [exact H1|]. split; [exact H2|]. split; [exact H3|]. split; [exact H4|].
  destruct (proj1 (markers_found_as_substrings (fun p => p) (fun s => [s]) (fun s => s)
                     "proj" [] inline_markers_world inline_markers_readme [] H1 H2)
              H3 H4)
    as (before & rest & pre & after & tail & _ & _ & _ & H).
  exists before, after. exact H.
Defined.

(** C4: in a document where the end marker occurs twice, the text after the
    first occurrence of the end marker is [keep<!-- DOCS END -->tail]; after
    the update only [keep] is left of it: the second marker and the text
    after it are gone. *)
Theorem text_after_second_end_marker_is_lost relpath splitlines strip :
  let w' := (update_readme relpath splitlines strip "proj" []
               two_end_markers_world).1 in
  first_occurrence end_marker two_end_markers_readme
    "<!-- DOCS START -->old" "keep<!-- DOCS END -->tail"
  /\ files w' !! "proj/README.md"
     = Some (start_marker +:+ newline +:+ end_marker +:+ "keep")
  /\ PyStr.endswith (start_marker +:+ newline +:+ end_marker +:+ "keep")
       "keep<!-- DOCS END -->tail" = false.
Proof.
  split; [by apply cut_first|]. split; [|reflexivity].
  assert (generate_api_reference relpath splitlines strip [] = Ok []) as Hg
    by reflexivity.
  assert (new_contents (universal_newlines two_end_markers_readme) (api_content [])
          = Ok (start_marker +:+ newline +:+ end_marker +:+ "keep")) as Hn.
  { rewrite (new_contents_replace
               (universal_newlines two_end_markers_readme) (api_content [])
               "" "old<!-- DOCS END -->keep<!-- DOCS END -->tail"
               "<!-- DOCS START -->old" "keep<!-- DOCS END -->tail" eq_refl eq_refl).
    reflexivity. }
  rewrite (update_readme_existing relpath splitlines strip "proj" []
             two_end_markers_world two_end_markers_readme _ [] eq_refl Hg Hn).
  reflexivity.
Qed.

(** ** The reference block *)

Lemma string_leb_trans (a b c : string) :
  String.leb a b = true -> String.leb b c = true -> String.leb a c = true.
Proof.
  intros H1 H2. apply Is_true_true.
  apply Is_true_true in H1, H2.
  exact (transitivity (R := String.le) H1 H2).
Qed.

Lemma string_ltb_of_leb (a b : string) :
  String.leb a b = true -> a <> b -> String.ltb a b = true.
Proof.
  unfold String.leb, String.ltb. intros H Hne.
  destruct (String.compare a b) eqn:E; try done.
  by apply String.compare_eq_iff in E.
Qed.

Lemma sorted_unique {A : Type} (R : A -> A -> Prop) (l l' : list A) :
  (forall a b, R a b -> R b a -> a = b) ->
  StronglySorted R l -> StronglySorted R l' -> Permutation l l' -> l = l'.
Proof.
  intros Hanti Hl. revert l'.
  induction Hl as [|x l Hl IH Hx]; intros l' Hl' Hp.
  - by apply Permutation_nil in Hp.
  - destruct Hl' as [|y l' Hl' Hy].
    + symmetry in Hp. by apply Permutation_nil in Hp.
    + assert (x = y) as ->.
      { assert (In x (y :: l')) as Hxin
          by (eapply Permutation_in; [exact Hp|by left]).
        assert (In y (x :: l)) as Hyin
          by (eapply Permutation_in; [symmetry; exact Hp|by left]).
        destruct Hxin as [->|Hxin]; [done|].
        destruct Hyin as [->|Hyin]; [done|].
        rewrite Forall_forall in Hx, Hy.
        apply Hanti; [apply Hx|apply Hy]; by apply list_elem_of_In. }
      f_equal. apply IH; [done|]. by apply Permutation_cons_inv in Hp.
Qed.

Lemma StronglySorted_strict {A : Type} (R : A -> A -> Prop) (l : list A) :
  StronglySorted R l -> List.NoDup l -> StronglySorted (fun a b => R a b /\ a <> b) l.
Proof.
  induction 1 as [|x l Hl IH Hx]; intros Hnd; [constructor|].
  apply List.NoDup_cons_iff in Hnd as [Hnot Hnd].
  constructor; [by apply IH|].
  rewrite Forall_forall in Hx. apply Forall_forall. intros y Hy.
  split; [by apply Hx|]. intros ->. by apply Hnot, list_elem_of_In.
Qed.

Section ReferenceFacts.

Variable relpath : string -> string.
Variable splitlines : string -> list string.
Variable strip : string -> string.

Lemma grouped_loop_keys (functions : list FunctionInfo) d k :
  In k (map fst
          (fold_left
             (fun d func => setdefault_append d (relpath (file_path func)) func)
             functions d))
  <-> In k (map fst d) \/ exists f, In f functions /\ relpath (file_path f) = k.
Proof.
  revert d. induction functions as [|f fs IH]; intros d; simpl.
  - split; [by left|]. intros [H|(f & [] & _)]. done.
  - rewrite IH, setdefault_append_keys. split.
    + intros [[H| ->]|(g & Hg & E)]; eauto.
    + intros [H|(g & [<-|Hg] & E)]; eauto.
Qed.

Lemma grouped_keys (functions : list FunctionInfo) k :
  In k (map fst (grouped relpath functions))
  <-> exists f, In f functions /\ relpath (file_path f) = k.
Proof.
  unfold grouped. rewrite grouped_loop_keys. simpl.
  split; [intros [[]|H]|intros H; right]; exact H.
Qed.

Lemma grouped_keys_NoDup (functions : list FunctionInfo) :
  List.NoDup (map fst (grouped relpath functions)).
Proof.
  unfold grouped.
  assert (List.NoDup (map fst (@nil (string * list FunctionInfo)))) as H
    by constructor.
  revert H. generalize (@nil (string * list FunctionInfo)).
  induction functions as [|f fs IH]; intros d Hd; simpl; [done|].
  by apply IH, setdefault_append_NoDup.
Qed.

Lemma getitem_ok {A : Type} (d : list (string * A)) (key : string) :
  In key (map fst d) -> exists v, getitem d key = Ok v.
Proof.
  unfold getitem. induction d as [|[k v] d IH]; simpl; [done|].
  intros [->|H].
  - rewrite String.eqb_refl. eauto.
  - destruct (String.eqb k key); eauto.
Qed.

Lemma is_heading_heading (file_name : string) : is_heading (heading file_name) = true.
Proof. apply prefix_occurs. by exists (file_name +:+ "`"). Qed.

Hypothesis splitlines_nonempty : forall s, s <> "" -> splitlines s <> [].

Lemma bullet_ok (func : FunctionInfo) :
  exists b, bullet splitlines strip func = Ok b /\ is_heading b = false.
Proof.
  unfold bullet, index.
  assert (docstring_or_default func <> "") as Hne
    by (unfold docstring_or_default; by destruct (docstring func) as [[|]|]).
  apply splitlines_nonempty in Hne.
  destruct (splitlines (docstring_or_default func)) as [|first rest]; [done|].
  simpl. eauto.
Qed.

Lemma bullets_ok (funcs : list FunctionInfo) (acc : list string) :
  exists bs,
    extend_with (fun func => result_bind (bullet splitlines strip func)
                               (fun b => Ok [b])) funcs acc
    = Ok (acc ++ bs)
    /\ Forall (fun b => is_heading b = false) bs.
Proof.
  revert acc. induction funcs as [|f funcs IH]; intros acc; simpl.
  - exists []. by rewrite app_nil_r.
  - destruct (bullet_ok f) as (b & -> & Hb). simpl.
    destruct (IH (acc ++ [b])) as (bs & -> & Hbs).
    exists (b :: bs). rewrite <- app_assoc. split; [done|]. by constructor.
Qed.

Lemma filter_not_heading (bs : list string) :
  Forall (fun b => is_heading b = false) bs -> List.filter is_heading bs = [].
Proof. induction 1 as [|b bs Hb _ IH]; simpl; [done|]. by rewrite Hb. Qed.

Lemma groups_ok (d : list (string * list FunctionInfo)) (keys acc : list string) :
  (forall k, In k keys -> In k (map fst d)) ->
  exists lines,
    extend_with
      (fun file_name =>
         result_bind (getitem d file_name) (fun funcs =>
         result_bind
           (extend_with (fun func => result_bind (bullet splitlines strip func)
                                       (fun b => Ok [b]))
              funcs [heading file_name])
           (fun lines => Ok (lines ++ [""]))))
      keys acc
    = Ok lines
    /\ List.filter is_heading lines = List.filter is_heading acc ++ map heading keys.
Proof.
  revert acc. induction keys as [|k keys IH]; intros acc Hin; simpl.
  - exists acc. by rewrite app_nil_r.
  - destruct (getitem_ok d k (Hin k (or_introl eq_refl))) as [funcs ->]. simpl.
    destruct (bullets_ok funcs [heading k]) as (bs & -> & Hbs). simpl.
    match goal with |- context [extend_with _ keys ?a] =>
      destruct (IH a) as (lines & -> & Hl) end.
    { intros k' Hk'. apply Hin. by right. }
    exists lines. split; [done|].
    rewrite Hl, List.filter_app. simpl.
    rewrite is_heading_heading, List.filter_app, (filter_not_heading bs Hbs). simpl.
    by rewrite <- app_assoc.
Qed.

Lemma reference_headings (functions : list FunctionInfo) :
  exists lines,
    generate_api_reference relpath splitlines strip functions = Ok lines
    /\ List.filter is_heading lines
       = map heading (sorted String.leb (map fst (grouped relpath functions))).
Proof.
  unfold generate_api_reference.
  destruct (groups_ok (grouped relpath functions)
              (sorted String.leb (map fst (grouped relpath functions))) [])
    as (lines & H & Hl).
  - intros k Hk. eapply Permutation_in; [apply sorted_perm|exact Hk].
  - exists lines. split; [exact H|exact Hl].
Qed.

Lemma sorted_paths_permutation (functions functions' : list FunctionInfo) :
  Permutation functions functions' ->
  sorted String.leb (map fst (grouped relpath functions))
  = sorted String.leb (map fst (grouped relpath functions')).
Proof.
  intros Hp.
  apply (sorted_unique (fun a b => String.leb a b = true)).
  - apply String.leb_antisym.
  - apply sorted_sorted; [apply String.leb_total|apply string_leb_trans].
  - apply sorted_sorted; [apply String.leb_total|apply string_leb_trans].
  - rewrite !sorted_perm.
    apply Permutation.NoDup_Permutation; try apply grouped_keys_NoDup.
    intros k. rewrite !grouped_keys. split; intros (f & Hf & E); exists f.
    + split; [|done]. eapply Permutation_in; [exact Hp|exact Hf].
    + split; [|done]. eapply Permutation_in; [symmetry; exact Hp|exact Hf].
Qed.

End ReferenceFacts.

(** C8: the reference is produced, its heading lines are the headings of the
    relative paths of the records, each path once, in strictly ascending
    lexicographic order; and any permutation of the records yields the same
    sequence of heading lines. *)
Theorem headings_sorted_by_path relpath splitlines strip
    (functions : list FunctionInfo) :
  (forall s, s <> "" -> splitlines s <> []) ->
  exists lines paths,
    generate_api_reference relpath splitlines strip functions = Ok lines
    /\ List.filter is_heading lines = map heading paths
    /\ StronglySorted (fun a b => String.ltb a b = true) paths
    /\ (forall k, In k paths <-> exists f, In f functions /\ relpath (file_path f) = k)
    /\ forall functions', Permutation functions functions' ->
         exists lines',
           generate_api_reference relpath splitlines strip functions' = Ok lines'
           /\ List.filter is_heading lines' = List.filter is_heading lines.
Proof.
  intros Hsplit.
  destruct (reference_headings relpath splitlines strip Hsplit functions)
    as (lines & Hg & Hh).
  exists lines, (sorted String.leb (map fst (grouped relpath functions))).
  split; [exact Hg|]. split; [exact Hh|]. split; [|split].
  - eapply StronglySorted_weaken;
      [|apply (StronglySorted_strict (fun a b => String.leb a b = true))].
    + intros a b [H Hne]. by apply string_ltb_of_leb.
    + apply sorted_sorted; [apply String.leb_total|apply string_leb_trans].
    + eapply Permutation.Permutation_NoDup; [symmetry; apply sorted_perm|].
      apply grouped_keys_NoDup.
  - intros k. rewrite <- (grouped_keys relpath functions k). split; intros H.
    + eapply Permutation_in; [apply sorted_perm|exact H].
    + eapply Permutation_in; [symmetry; apply sorted_perm|exact H].
  - intros functions' Hp.
    destruct (reference_headings relpath splitlines strip Hsplit functions')
      as (lines' & Hg' & Hh').
    exists lines'. split; [exact Hg'|].
    by rewrite Hh, Hh', (sorted_paths_permutation relpath _ _ Hp).
Qed.

Lemma headings_sorted_by_path_witness :
  (forall s, s <> "" -> (fun s : string => [s]) s <> [])
  /\ exists lines,
       generate_api_reference (fun p => p) (fun s => [s]) (fun s => s)
         scattered_records = Ok lines
       /\ exists paths, List.filter is_heading lines = map heading paths.
Proof.
  assert (forall s : string, s <> "" -> (fun s : string => [s]) s <> []) as H
    by (intros s _; discriminate).
  split; [exact H|].
  destruct (headings_sorted_by_path (fun p => p) (fun s => [s]) (fun s => s)
              scattered_records H) as (lines & paths & Hg & Hh & _).
  exists lines. split; [exact Hg|]. exists paths. exact Hh.
Defined.

(** * Further properties *)

(** ** The walk over a tree without guarded definitions *)

Lemma flat_map_ext_Forall {A B : Type} (f g : A -> list B) (l : list A) :
  Forall (fun x => f x = g x) l -> flat_map f l = flat_map g l.
Proof. induction 1 as [|x l Hx _ IH]; simpl; [done|]. by rewrite Hx, IH. Qed.

Lemma unguarded_definitions (child : ast.stmt) :
  unguarded child = true -> definitions_of child = reached_of child.
Proof.
  induction child as [n a body ln col IH|n a body ln col IH|n body IH| |
                      body orelse _ _|blocks _| ] using stmt_nested_ind;
    simpl; intros H; try done.
  - f_equal. apply flat_map_ext_Forall.
    rewrite forallb_forall in H. rewrite Forall_forall in IH.
    apply Forall_forall. intros s Hs. apply IH; [done|]. by apply H, list_elem_of_In.
  - f_equal. apply flat_map_ext_Forall.
    rewrite forallb_forall in H. rewrite Forall_forall in IH.
    apply Forall_forall. intros s Hs. apply IH; [done|]. by apply H, list_elem_of_In.
  - apply flat_map_ext_Forall.
    rewrite forallb_forall in H. rewrite Forall_forall in IH.
    apply Forall_forall. intros s Hs. apply IH; [done|]. by apply H, list_elem_of_In.
  - by destruct (flat_map definitions_of body ++ flat_map definitions_of orelse).
  - by destruct (flat_map definitions_of blocks).
Qed.

(** X1: when no definition of the file stands inside a conditional, a loop, a
    [with], a [try] or a [match], the scan yields exactly one record for each
    definition of the file, at every depth of classes and definitions, in
    pre-order, and the record carries the definition's name, position,
    docstring and the path of the file. *)
Theorem unguarded_definitions_all_recorded (tree : list ast.stmt) (file_path : string) :
  forallb unguarded tree = true ->
  Forall2 (is_record_of file_path)
    (all_definitions tree) (_gather_functions (ast.Module tree) file_path).
Proof.
  intros H.
  replace (all_definitions tree) with (reached_definitions (ast.Module tree)).
  - apply gather_reached.
  - unfold reached_definitions, all_definitions. simpl. symmetry.
    apply flat_map_ext_Forall, Forall_forall. intros s Hs.
    apply unguarded_definitions.
    rewrite forallb_forall in H. by apply H, list_elem_of_In.
Qed.

Lemma unguarded_definitions_all_recorded_witness :
  forallb unguarded nested_tree = true
  /\ Forall2 (is_record_of "a.py")
       (all_definitions nested_tree) (_gather_functions (ast.Module nested_tree) "a.py").
Proof.
  assert (forallb unguarded nested_tree = true) as H by reflexivity.
  split; [exact H|].
  exact (unguarded_definitions_all_recorded nested_tree "a.py" H).
Defined.

(** ** Scanning several files *)

Section ScanRuns.

Variable ast_parse : string -> ast.parse_result.

Lemma read_text_log path w : log (read_text path w).1 = log w ++ [EvRead path].
Proof. unfold read_text. by destruct (files w !! path). Qed.

Lemma scan_step_log acc path w :
  log (scan_step ast_parse acc path w).1 = log w ++ [EvRead path].
Proof.
  unfold scan_step, scan_python_file, bind.
  pose proof (read_text_log path w) as H.
  destruct (read_text path w) as [w1 [source|e]]; simpl in *; [|done].
  by destruct (ast_parse source).
Qed.

Lemma scan_loop_log paths acc w :
  exists read,
    log (for_each (scan_step ast_parse) paths acc w).1 = log w ++ map EvRead read
    /\ read `prefix_of` paths.
Proof.
  revert acc w. induction paths as [|p paths IH]; intros acc w.
  - exists []. simpl. by rewrite app_nil_r.
  - rewrite for_each_cons. pose proof (scan_step_log acc p w) as H.
    destruct (scan_step ast_parse acc p w) as [w1 [acc1|e]]; simpl in H.
    + destruct (IH acc1 w1) as (read & Hl & Hp).
      exists (p :: read). rewrite Hl, H, <- app_assoc. split; [done|].
      destruct Hp as [k ->]. by exists k.
    + exists [p]. split; [done|]. by exists paths.
Qed.

Lemma scan_loop_concat (f : string -> list FunctionInfo) paths acc w :
  (forall path, In path paths -> (scan_python_file ast_parse path w).2 = Ok (f path)) ->
  (for_each (scan_step ast_parse) paths acc w).2 = Ok (acc ++ flat_map f paths).
Proof.
  revert acc w. induction paths as [|p paths IH]; intros acc w Hok.
  - simpl. by rewrite app_nil_r.
  - rewrite for_each_cons.
    pose proof (scan_step_files ast_parse acc p w) as F.
    pose proof (Hok p (or_introl eq_refl)) as Hp.
    unfold scan_step, bind in *.
    destruct (scan_python_file ast_parse p w) as [w1 [found|e]]; simpl in *; [|done].
    injection Hp as ->. rewrite IH.
    + simpl. by rewrite <- app_assoc.
    + intros path Hpath.
      rewrite (scan_python_file_result ast_parse path w1 w F). apply Hok. by right.
Qed.

Lemma scan_missing path w :
  files w !! path = None ->
  (scan_python_file ast_parse path w).2 = Raise (FileNotFoundError path).
Proof. intros H. unfold scan_python_file, bind, read_text. by rewrite H. Qed.

Lemma scan_loop_missing before missing after acc w :
  (forall path, In path before ->
     exists found, (scan_python_file ast_parse path w).2 = Ok found) ->
  files w !! missing = None ->
  (for_each (scan_step ast_parse) (before ++ missing :: after) acc w).2
  = Raise (FileNotFoundError missing).
Proof.
  revert acc w. induction before as [|p before IH]; intros acc w Hok Hm.
  - simpl app. rewrite for_each_cons. unfold scan_step, bind.
    pose proof (scan_missing missing w Hm) as H.
    by destruct (scan_python_file ast_parse missing w) as [w1 [found|e]];
      simpl in *; simplify_eq.
  - simpl app. rewrite for_each_cons.
    pose proof (scan_step_files ast_parse acc p w) as F.
    destruct (Hok p (or_introl eq_refl)) as [found Hp].
    unfold scan_step, bind in *.
    destruct (scan_python_file ast_parse p w) as [w1 [found'|e]]; simpl in *; [|done].
    apply IH; [|by rewrite F].
    intros path Hpath. destruct (Hok path (or_intror Hpath)) as [r Hr].
    exists r. by rewrite (scan_python_file_result ast_parse path w1 w F).
Qed.

End ScanRuns.

(** X2: scanning never changes a file; what it adds to the log of accesses
    are reads of the listed paths, one per path and in the order of the list,
    up to the path at which the run stops. *)
Theorem scanning_only_reads (ast_parse : string -> ast.parse_result)
    (paths : list string) (w : world) :
  files (scan_files ast_parse paths w).1 = files w
  /\ exists read,
       log (scan_files ast_parse paths w).1 = log w ++ map EvRead read
       /\ read `prefix_of` paths.
Proof.
  split; [apply scan_loop_files|apply scan_loop_log].
Qed.

(** X3: when each file of the list can be scanned, the run returns the
    records of the files, file after file in the order of the list. *)
Theorem scan_files_concatenates (ast_parse : string -> ast.parse_result)
    (f : string -> list FunctionInfo) (paths : list string) (w : world) :
  (forall path, In path paths -> (scan_python_file ast_parse path w).2 = Ok (f path)) ->
  (scan_files ast_parse paths w).2 = Ok (flat_map f paths).
Proof. intros H. unfold scan_files. by rewrite (scan_loop_concat ast_parse f). Qed.

Lemma scan_files_concatenates_witness :
  (forall path, In path ["m.py"; "m.py"] ->
     (scan_python_file sample_parse path multiline_header_world).2
     = Ok (_gather_functions (ast.Module multiline_header_tree) path))
  /\ (scan_files sample_parse ["m.py"; "m.py"] multiline_header_world).2
     = Ok (flat_map (_gather_functions (ast.Module multiline_header_tree))
             ["m.py"; "m.py"]).
Proof.
  assert (forall path, In path ["m.py"; "m.py"] ->
            (scan_python_file sample_parse path multiline_header_world).2
            = Ok (_gather_functions (ast.Module multiline_header_tree) path)) as H
    by (intros path [<-|[<-|[]]]; reflexivity).
  split; [exact H|].
  exact (scan_files_concatenates sample_parse
           (_gather_functions (ast.Module multiline_header_tree)) _
           multiline_header_world H).
Defined.

(** X4: a listed file that does not exist ends the run with
    [FileNotFoundError] for that file, when the files listed before it could
    be scanned; the records gathered so far are lost. *)
Theorem scan_stops_at_missing_file (ast_parse : string -> ast.parse_result)
    (before after : list string) (missing : string) (w : world) :
  (forall path, In path before ->
     exists found, (scan_python_file ast_parse path w).2 = Ok found) ->
  files w !! missing = None ->
  (scan_files ast_parse (before ++ missing :: after) w).2
  = Raise (FileNotFoundError missing).
Proof. intros. by apply scan_loop_missing. Qed.

Lemma scan_stops_at_missing_file_witness :
  (forall path, In path ["bad.py"] ->
     exists found, (scan_python_file sample_parse path malformed_world).2 = Ok found)
  /\ files malformed_world !! "gone.py" = None
  /\ (scan_files sample_parse (["bad.py"] ++ "gone.py" :: ["bad.py"]) malformed_world).2
     = Raise (FileNotFoundError "gone.py").
Proof.
  assert (forall path, In path ["bad.py"] ->
     exists found, (scan_python_file sample_parse path malformed_world).2 = Ok found) as H1
    by (intros path [<-|[]]; by exists []).
  assert (files malformed_world !! "gone.py" = None) as H2 by reflexivity.
  split; [exact H1|]. split; [exact H2|].
  exact (scan_stops_at_missing_file sample_parse ["bad.py"] ["bad.py"] "gone.py"
           malformed_world H1 H2).
Defined.

(** ** The paths that discovery returns *)

Lemma str_take_drop (n : nat) (s : string) :
  exists a, s = a +:+ PyStr.drop n s.
Proof.
  revert s. induction n as [|n IH]; intros s.
  - by exists "".
  - destruct s as [|c s]; [by exists ""|].
    destruct (IH s) as [a Ha]. exists (String c a). simpl.
    by rewrite str_app_cons, <- Ha.
Qed.

Lemma endswith_occurs (s p : string) :
  PyStr.endswith s p = true <-> exists a, s = a +:+ p.
Proof.
  unfold PyStr.endswith. rewrite andb_true_iff, Nat.leb_le, String.eqb_eq. split.
  - intros [_ H]. destruct (str_take_drop (String.length s - String.length p) s) as [a Ha].
    exists a. by rewrite <- H.
  - intros [a ->]. rewrite str_length_app. split; [lia|].
    replace (String.length a + String.length p - String.length p) with (String.length a)
      by lia.
    apply drop_app.
Qed.

Lemma path_join_cases (a b : string) :
  path_join a b = b \/ path_join a b = a +:+ b \/ path_join a b = a +:+ "/" +:+ b.
Proof.
  unfold path_join. destruct (PyStr.startswith b "/"); [by left|].
  destruct (String.eqb a "" || PyStr.endswith a "/"); auto.
Qed.

Lemma path_join_relative (a b : string) :
  PyStr.startswith b "/" = false ->
  path_join a b = a +:+ b \/ path_join a b = a +:+ "/" +:+ b.
Proof.
  intros H. unfold path_join. rewrite H.
  destruct (String.eqb a "" || PyStr.endswith a "/"); auto.
Qed.

Lemma path_join_ends (a b : string) : exists x, path_join a b = x +:+ b.
Proof.
  destruct (path_join_cases a b) as [->|[->| ->]].
  - by exists "".
  - by exists a.
  - exists (a +:+ "/"). by rewrite str_app_assoc.
Qed.

Lemma found_path_origin (root_dir : string) (tree : dir) (path : string) :
  In path (find_python_files root_dir tree) ->
  exists base subdirs filenames filename,
    lies_under root_dir tree base (Dir subdirs filenames)
    /\ In filename filenames
    /\ is_python_file filename = true
    /\ path = path_join base filename.
Proof.
  rewrite find_python_files_walk, in_flat_map.
  intros [[[base dirs] fns] [Hw Hp]]. simpl in Hp.
  apply in_map_iff in Hp as [f [<- Hf]].
  apply filter_In in Hf as [Hf Hpy].
  apply os_walk_lies_under in Hw as [subs [-> Hl]].
  by exists base, subs, fns, f.
Qed.

Lemma found_path_py (root_dir : string) (tree : dir) (path : string) :
  In path (find_python_files root_dir tree) ->
  PyStr.endswith path ".py" = true.
Proof.
  intros (base & subs & fns & f & _ & _ & Hpy & ->)%found_path_origin.
  unfold is_python_file in Hpy. apply andb_true_iff in Hpy as [He _].
  apply endswith_occurs in He as [a ->].
  destruct (path_join_ends base (a +:+ ".py")) as [x ->].
  apply endswith_occurs. exists (x +:+ a). by rewrite str_app_assoc.
Qed.

(** X5: every path that discovery returns ends with [.py], whatever the
    directory and the root it was joined with. *)
Theorem found_paths_end_with_py (root_dir : string) (tree : dir) (path : string) :
  In path (find_python_files root_dir tree) ->
  PyStr.endswith path ".py" = true.
Proof. apply found_path_py. Qed.

Lemma found_paths_end_with_py_witness :
  In "/proj/main.py" (find_python_files "/proj" sample_project)
  /\ PyStr.endswith "/proj/main.py" ".py" = true.
Proof.
  assert (In "/proj/main.py" (find_python_files "/proj" sample_project)) as H
    by (vm_compute; auto).
  split; [exact H|].
  exact (found_paths_end_with_py "/proj" sample_project "/proj/main.py" H).
Defined.

Lemma lies_under_prefix (top : string) (d : dir) (base : string) (d' : dir) :
  lies_under top d base d' ->
  names_ok d = true ->
  (exists x, base = top +:+ x) /\ names_ok d' = true.
Proof.
  induction 1 as [top d|top subdirs fns n sub base d' Hin _ IH]; intros Hok.
  - split; [|done]. exists "". by rewrite str_app_nil_r.
  - simpl in Hok. apply andb_true_iff in Hok as [Hsubs _].
    rewrite forallb_forall in Hsubs. specialize (Hsubs _ Hin). simpl in Hsubs.
    apply andb_true_iff in Hsubs as [Hn Hsub]. apply negb_true_iff in Hn.
    destruct (IH Hsub) as [[x ->] Hd']. split; [|done].
    destruct (path_join_relative top n Hn) as [->| ->].
    + exists (n +:+ x). by rewrite str_app_assoc.
    + exists ("/" +:+ n +:+ x). by rewrite !str_app_assoc.
Qed.

(** X6: in a listing whose names do not start with a slash, every path that
    discovery returns begins with the root directory it was given. *)
Theorem found_paths_lie_under_root (root_dir : string) (tree : dir) (path : string) :
  names_ok tree = true ->
  In path (find_python_files root_dir tree) ->
  PyStr.startswith path root_dir = true.
Proof.
  intros Hok (base & subs & fns & f & Hl & Hf & _ & ->)%found_path_origin.
  destruct (lies_under_prefix _ _ _ _ Hl Hok) as [[x ->] Hd].
  simpl in Hd. apply andb_true_iff in Hd as [_ Hfns].
  rewrite forallb_forall in Hfns. specialize (Hfns _ Hf).
  apply negb_true_iff in Hfns.
  apply prefix_occurs.
  destruct (path_join_relative (root_dir +:+ x) f Hfns) as [->| ->].
  - exists (x +:+ f). by rewrite str_app_assoc.
  - exists (x +:+ "/" +:+ f). by rewrite !str_app_assoc.
Qed.

Lemma found_paths_lie_under_root_witness :
  names_ok sample_project = true
  /\ In "/proj/.venv/site.py" (find_python_files "/proj" sample_project)
  /\ PyStr.startswith "/proj/.venv/site.py" "/proj" = true.
Proof.
  assert (names_ok sample_project = true) as H1 by reflexivity.
  assert (In "/proj/.venv/site.py" (find_python_files "/proj" sample_project)) as H2
    by (vm_compute; auto).
  split; [exact H1|]. split; [exact H2|].
  exact (found_paths_lie_under_root "/proj" sample_project _ H1 H2).
Defined.

(** ** The groups, the count and the texts of the inserter *)

Lemma group_of_In {A : Type} (d : list (string * list A)) (k : string) (xs : list A) :
  List.NoDup (map fst d) -> In (k, xs) d -> group_of d k = xs.
Proof.
  induction d as [|[k' xs'] d IH]; simpl; [done|].
  intros Hnd [E|Hin]; apply List.NoDup_cons_iff in Hnd as [Hnot Hnd].
  - injection E as -> ->. apply group_of_head.
  - rewrite group_of_tail; [by apply IH|].
    intros ->. apply Hnot. apply in_map_iff. by exists (k, xs).
Qed.

(** X7: the inserter's grouping has one entry per file that has an
    undocumented record, and the entry of a file holds exactly the undocumented
    records of that file, in the order of the input. *)
Theorem groups_hold_undocumented_records (functions : list FunctionInfo) :
  List.NoDup (map fst (functions_by_file functions))
  /\ (forall k, In k (map fst (functions_by_file functions))
        <-> exists f, In f functions /\ docstring f = None /\ file_path f = k)
  /\ (forall k funcs, In (k, funcs) (functions_by_file functions) ->
        funcs = List.filter (eligible_in k) functions).
Proof.
  split; [apply functions_by_file_NoDup|]. split.
  - intros k. split; [apply functions_by_file_keys|].
    intros (f & Hf & Hd & <-).
    destruct (in_dec string_dec (file_path f) (map fst (functions_by_file functions)))
      as [Hin|Hnin]; [done|].
    apply group_of_missing in Hnin. rewrite functions_by_file_group in Hnin.
    assert (In f (List.filter (eligible_in (file_path f)) functions)) as Hf'.
    { apply filter_In. split; [done|]. unfold eligible_in, undocumented.
      by rewrite Hd, String.eqb_refl. }
    rewrite Hnin in Hf'. destruct Hf'.
  - intros k funcs Hin. rewrite <- functions_by_file_group.
    symmetry. apply group_of_In; [apply functions_by_file_NoDup|done].
Qed.

(** X8: when the files of the undocumented records exist, the inserter
    returns the number of undocumented records; afterwards a file with such
    records holds its text, read with the line endings translated, with the
    stubs of its own undocumented records inserted, and every other file holds
    what it held. *)
Theorem insertion_count_and_texts (functions : list FunctionInfo) (w : world) :
  (forall f, In f functions -> docstring f = None -> is_Some (files w !! file_path f)) ->
  exists w',
    insert_missing_docstrings functions w
    = (w', Ok (Z.of_nat (length (List.filter undocumented functions))))
    /\ forall path,
         files w' !! path
         = match List.filter (eligible_in path) functions with
           | [] => files w !! path
           | funcs => (fun text => patched text funcs) <$> files w !! path
           end.
Proof. apply rewritten_file_contents. Qed.

Lemma insertion_count_and_texts_witness :
  (forall f, In f mixed_records -> docstring f = None ->
     is_Some (files mixed_world !! file_path f))
  /\ exists w',
       insert_missing_docstrings mixed_records mixed_world
       = (w', Ok (Z.of_nat (length (List.filter undocumented mixed_records))))
       /\ forall path,
            files w' !! path
            = match List.filter (eligible_in path) mixed_records with
              | [] => files mixed_world !! path
              | funcs => (fun text => patched text funcs) <$> files mixed_world !! path
              end.
Proof.
  assert (forall f, In f mixed_records -> docstring f = None ->
            is_Some (files mixed_world !! file_path f)) as H.
  { intros f [<-|[<-|[]]]; simpl; [discriminate|]. intros _. eexists. reflexivity. }
  split; [exact H|].
  exact (insertion_count_and_texts mixed_records mixed_world H).
Defined.

(** X10: for records that all have documentation the inserter returns 0 and
    performs no access at all: no file is read or written and the log of
    accesses is as before. *)
Theorem documented_records_cause_no_access (functions : list FunctionInfo) (w : world) :
  Forall (fun f => docstring f <> None) functions ->
  insert_missing_docstrings functions w = (w, Ok 0%Z).
Proof. apply nothing_to_insert. Qed.

Lemma documented_records_cause_no_access_witness :
  Forall (fun f => docstring f <> None)
    (List.filter (fun f => negb (undocumented f)) mixed_records)
  /\ insert_missing_docstrings
       (List.filter (fun f => negb (undocumented f)) mixed_records) mixed_world
     = (mixed_world, Ok 0%Z).
Proof.
  assert (Forall (fun f => docstring f <> None)
            (List.filter (fun f => negb (undocumented f)) mixed_records)) as H
    by (repeat constructor; discriminate).
  split; [exact H|].
  exact (documented_records_cause_no_access _ mixed_world H).
Defined.

Lemma for_each_app {A S : Type} (body : S -> A -> IO S) (l1 l2 : list A)
    (s : S) (w : world) :
  for_each body (l1 ++ l2) s w =
  match for_each body l1 s w with
  | (w', Ok s') => for_each body l2 s' w'
  | (w', Raise e) => (w', Raise e)
  end.
Proof.
  revert s w. induction l1 as [|x l1 IH]; intros s w; [done|].
  simpl app. rewrite !for_each_cons.
  destruct (body s x w) as [w1 [s1|e]]; [apply IH|done].
Qed.

Lemma group_of_app_l {A : Type} (d1 d2 : list (string * list A)) (k : string) :
  In k (map fst d1) -> group_of (d1 ++ d2) k = group_of d1 k.
Proof.
  unfold group_of. induction d1 as [|[k' xs] d1 IH]; simpl; [done|].
  intros [->|H]; [by rewrite String.eqb_refl|].
  destruct (String.eqb k' k); [done|by apply IH].
Qed.

(** X9: when the file of a group does not exist, the run ends with
    [FileNotFoundError] for that file; the files of the groups before it are
    already rewritten with their stubs and stay so, and no other file is
    changed. *)
Theorem insertion_stops_at_missing_file (functions : list FunctionInfo) (w : world)
    (before after : list (string * list FunctionInfo))
    (missing : string) (funcs : list FunctionInfo) :
  functions_by_file functions = before ++ (missing, funcs) :: after ->
  (forall k, In k (map fst before) -> is_Some (files w !! k)) ->
  files w !! missing = None ->
  exists w',
    insert_missing_docstrings functions w = (w', Raise (FileNotFoundError missing))
    /\ forall path,
         files w' !! path
         = if bool_decide (path ∈ map fst before)
           then (fun text => patched text (List.filter (eligible_in path) functions))
                  <$> files w !! path
           else files w !! path.
Proof.
  intros E Hex Hm.
  pose proof (functions_by_file_NoDup functions) as Hnd.
  rewrite E, map_app in Hnd. apply List.NoDup_app_remove_r in Hnd.
  destruct (patch_loop_ok before 0 w Hnd Hex) as (w1 & Hrun & Hfiles).
  exists {| files := files w1; log := log w1 ++ [EvRead missing] |}.
  unfold insert_missing_docstrings. rewrite E, for_each_app, Hrun.
  rewrite for_each_cons, patch_file_eq.
  assert (files w1 !! missing = None) as Hm1.
  { rewrite Hfiles. destruct (bool_decide (missing ∈ map fst before)); by rewrite Hm. }
  rewrite Hm1. split; [done|].
  intros path. simpl. rewrite Hfiles.
  destruct (decide (path ∈ map fst before)) as [Hin|Hnin].
  - rewrite !bool_decide_eq_true_2 by done.
    rewrite <- functions_by_file_group, E, group_of_app_l; [done|].
    by apply list_elem_of_In.
  - by rewrite !bool_decide_eq_false_2 by done.
Qed.

Lemma insertion_stops_at_missing_file_witness :
  functions_by_file mixed_records
  = [] ++ ("app.py", List.filter (eligible_in "app.py") mixed_records) :: []
  /\ (forall k, In k (map fst (@nil (string * list FunctionInfo))) ->
        is_Some (files malformed_world !! k))
  /\ files malformed_world !! "app.py" = None
  /\ exists w',
       insert_missing_docstrings mixed_records malformed_world
       = (w', Raise (FileNotFoundError "app.py")).
Proof.
  assert (functions_by_file mixed_records
          = [] ++ ("app.py", List.filter (eligible_in "app.py") mixed_records) :: [])
    as H1 by reflexivity.
  assert (forall k, In k (map fst (@nil (string * list FunctionInfo))) ->
            is_Some (files malformed_world !! k)) as H2 by (intros k []).
  assert (files malformed_world !! "app.py" = None) as H3 by reflexivity.
  split; [exact H1|]. split; [exact H2|]. split; [exact H3|].
  destruct (insertion_stops_at_missing_file mixed_records malformed_world
              [] [] "app.py" _ H1 H2 H3) as (w' & Hrun & _).
  exists w'. exact Hrun.
Defined.

(** ** What the insertions do to the lines *)

Lemma list_insert_split {A : Type} (l : list A) (i : Z) (x : A) :
  exists j, list_insert l i x = take j l ++ x :: drop j l.
Proof. unfold list_insert. eauto. Qed.

Lemma insert_steps_permutation (rs : list FunctionInfo) (lines : list string) :
  Permutation (fold_left insert_step rs lines) (lines ++ map stub rs).
Proof.
  revert lines. induction rs as [|f rs IH]; intros lines; simpl.
  - by rewrite app_nil_r.
  - rewrite IH. unfold insert_step.
    destruct (list_insert_split lines (lineno f) (stub f)) as [j ->].
    rewrite <- Permutation_middle. simpl.
    rewrite take_drop. by rewrite <- Permutation_middle.
Qed.

Lemma insert_steps_sublist (rs : list FunctionInfo) (lines : list string) :
  lines `sublist_of` fold_left insert_step rs lines.
Proof.
  revert lines. induction rs as [|f rs IH]; intros lines; simpl; [done|].
  etrans; [|apply IH]. unfold insert_step.
  destruct (list_insert_split lines (lineno f) (stub f)) as [j ->].
  rewrite <- (take_drop j lines) at 1.
  apply sublist_app; [done|]. by apply sublist_cons.
Qed.

(** X11: whatever the records and their line numbers, the insertions delete,
    alter and reorder no line: the original lines are a subsequence of the
    result, and the result consists of the original lines and one stub per
    record. *)
Theorem insertions_only_add_stubs (lines : list string) (funcs : list FunctionInfo) :
  lines `sublist_of` insert_stubs lines funcs
  /\ Permutation (insert_stubs lines funcs) (lines ++ map stub funcs).
Proof.
  split; [apply insert_steps_sublist|].
  unfold insert_stubs. rewrite insert_steps_permutation.
  apply Permutation_app_head, Permutation_map. symmetry. apply funcs_sorted_perm.
Qed.

Lemma concat_empty_cons (x : string) (xs : list string) :
  String.concat "" (x :: xs) = x +:+ String.concat "" xs.
Proof. destruct xs; simpl; [by rewrite str_app_nil_r|done]. Qed.

Lemma concat_empty_app (l1 l2 : list string) :
  String.concat "" (l1 ++ l2) = String.concat "" l1 +:+ String.concat "" l2.
Proof.
  induction l1 as [|x l1 IH]; [done|].
  simpl app. by rewrite !concat_empty_cons, IH, str_app_assoc.
Qed.

(** Writing back the lines that were read gives the text that was read. *)
Lemma concat_lines_of (text : string) : String.concat "" (lines_of text) = text.
Proof.
  induction text as [|c text IH]; [done|].
  simpl lines_of. destruct (Ascii.eqb c "010").
  - by rewrite concat_empty_cons, IH.
  - destruct (lines_of text) as [|l ls].
    + simpl in *. by rewrite <- IH.
    + rewrite concat_empty_cons in *. rewrite str_app_cons. by rewrite IH.
Qed.

(** X12: for a file with one undocumented record whose header is at line [L]
    of the file, the text written is the text read with the stub put between
    its first [L] lines and the rest: nothing else of the text changes. *)
Theorem single_stub_splits_text (text : string) (f : FunctionInfo) :
  let lines := lines_of (universal_newlines text) in
  let L := Z.to_nat (lineno f) in
  (1 <= lineno f <= Z.of_nat (length lines))%Z ->
  patched text [f]
  = String.concat "" (take L lines) +:+ stub f +:+ String.concat "" (drop L lines)
  /\ String.concat "" (take L lines) +:+ String.concat "" (drop L lines)
     = universal_newlines text.
Proof.
  intros lines L H. subst lines L. split.
  - unfold patched, insert_stubs, funcs_sorted. simpl.
    rewrite insert_step_in_range by lia.
    unfold insert_at.
    by rewrite concat_empty_app, concat_empty_cons.
  - by rewrite <- concat_empty_app, take_drop, concat_lines_of.
Qed.

Lemma single_stub_splits_text_witness :
  (1 <= 1 <= Z.of_nat (length (lines_of (universal_newlines multiline_header_source))))%Z
  /\ patched multiline_header_source
       [function_info "m.py" "f" (plain_args ["x"]) [ast.Simple] 1 0]
     = multiline_header_stubbed.
Proof.
  assert (1 <= 1 <= Z.of_nat (length (lines_of
            (universal_newlines multiline_header_source))))%Z as H
    by (simpl; lia).
  split; [exact H|].
  rewrite (proj1 (single_stub_splits_text multiline_header_source
             (function_info "m.py" "f" (plain_args ["x"]) [ast.Simple] 1 0) H)).
  reflexivity.
Defined.

(** ** The layout of the reference *)

Section ReferenceLayout.

Variable relpath : string -> string.
Variable splitlines : string -> list string.
Variable strip : string -> string.
Hypothesis splitlines_nonempty : forall s, s <> "" -> splitlines s <> [].

Lemma grouped_loop_group (functions : list FunctionInfo) d k :
  group_of
    (fold_left (fun d func => setdefault_append d (relpath (file_path func)) func)
       functions d) k
  = group_of d k ++ List.filter (in_file relpath k) functions.
Proof.
  revert d. induction functions as [|f fs IH]; intros d; simpl.
  - by rewrite app_nil_r.
  - rewrite IH, group_of_setdefault_append. unfold in_file at 2.
    destruct (String.eqb (relpath (file_path f)) k); [|done].
    by rewrite <- app_assoc.
Qed.

Lemma grouped_group (functions : list FunctionInfo) k :
  group_of (grouped relpath functions) k = List.filter (in_file relpath k) functions.
Proof. unfold grouped. by rewrite grouped_loop_group. Qed.

Lemma getitem_group (d : list (string * list FunctionInfo)) (k : string) :
  In k (map fst d) -> getitem d k = Ok (group_of d k).
Proof.
  unfold getitem, group_of. induction d as [|[k' v] d IH]; simpl; [done|].
  intros [->|H].
  - by rewrite String.eqb_refl.
  - destruct (String.eqb k' k); [done|by apply IH].
Qed.

Lemma bullet_is_bullet_line (func : FunctionInfo) :
  bullet splitlines strip func = Ok (bullet_line splitlines strip func).
Proof.
  unfold bullet, bullet_line, index.
  assert (docstring_or_default func <> "") as Hne
    by (unfold docstring_or_default; by destruct (docstring func) as [[|]|]).
  apply splitlines_nonempty in Hne.
  by destruct (splitlines (docstring_or_default func)).
Qed.

Lemma bullets_layout (funcs : list FunctionInfo) (acc : list string) :
  extend_with (fun func => result_bind (bullet splitlines strip func)
                             (fun b => Ok [b])) funcs acc
  = Ok (acc ++ map (bullet_line splitlines strip) funcs).
Proof.
  revert acc. induction funcs as [|f funcs IH]; intros acc; simpl.
  - by rewrite app_nil_r.
  - rewrite bullet_is_bullet_line. simpl. rewrite IH. by rewrite <- app_assoc.
Qed.

Lemma groups_layout (functions : list FunctionInfo) (keys acc : list string) :
  (forall k, In k keys -> In k (map fst (grouped relpath functions))) ->
  extend_with
    (fun file_name =>
       result_bind (getitem (grouped relpath functions) file_name) (fun funcs =>
       result_bind
         (extend_with (fun func => result_bind (bullet splitlines strip func)
                                     (fun b => Ok [b]))
            funcs [heading file_name])
         (fun lines => Ok (lines ++ [""]))))
    keys acc
  = Ok (acc ++ flat_map (file_block relpath splitlines strip functions) keys).
Proof.
  revert acc. induction keys as [|k keys IH]; intros acc Hin; simpl.
  - by rewrite app_nil_r.
  - rewrite getitem_group by (apply Hin; by left). simpl.
    rewrite bullets_layout. simpl. rewrite IH by (intros; apply Hin; by right).
    unfold file_block. rewrite grouped_group. by rewrite <- app_assoc.
Qed.

Lemma reference_is_blocks (functions : list FunctionInfo) :
  generate_api_reference relpath splitlines strip functions
  = Ok (flat_map (file_block relpath splitlines strip functions)
          (sorted String.leb (map fst (grouped relpath functions)))).
Proof.
  unfold generate_api_reference. rewrite groups_layout; [done|].
  intros k Hk. eapply Permutation_in; [apply sorted_perm|exact Hk].
Qed.

Lemma sorted_paths_strict (functions : list FunctionInfo) :
  StronglySorted (fun a b => String.ltb a b = true)
    (sorted String.leb (map fst (grouped relpath functions))).
Proof.
  eapply StronglySorted_weaken;
    [|apply (StronglySorted_strict (fun a b => String.leb a b = true))].
  - intros a b [H Hne]. by apply string_ltb_of_leb.
  - apply sorted_sorted; [apply String.leb_total|apply string_leb_trans].
  - eapply Permutation.Permutation_NoDup; [symmetry; apply sorted_perm|].
    apply grouped_keys_NoDup.
Qed.

Lemma sorted_paths_members (functions : list FunctionInfo) (k : string) :
  In k (sorted String.leb (map fst (grouped relpath functions)))
  <-> exists f, In f functions /\ relpath (file_path f) = k.
Proof.
  rewrite <- (grouped_keys relpath functions k). split; intros H.
  - eapply Permutation_in; [apply sorted_perm|exact H].
  - eapply Permutation_in; [symmetry; apply sorted_perm|exact H].
Qed.

Lemma group_sizes (d : list (string * list FunctionInfo)) :
  List.NoDup (map fst d) ->
  length (flat_map (group_of d) (map fst d)) = length (flat_map snd d).
Proof.
  induction d as [|[k xs] d IH]; simpl; intros Hnd; [done|].
  apply List.NoDup_cons_iff in Hnd as [Hnot Hnd].
  rewrite group_of_head, !length_app. f_equal.
  rewrite <- IH by done. f_equal. apply flat_map_ext_Forall, Forall_forall.
  intros k' Hk'. apply group_of_tail. intros ->. by apply Hnot, list_elem_of_In.
Qed.

Lemma grouped_total (functions : list FunctionInfo) :
  length (flat_map snd (grouped relpath functions)) = length functions.
Proof.
  unfold grouped.
  assert (forall (d : list (string * list FunctionInfo)) k x,
            length (flat_map snd (setdefault_append d k x))
            = S (length (flat_map snd d))) as Hstep.
  { intros d k x. induction d as [|[k' xs] d IH]; simpl; [done|].
    destruct (String.eqb k' k); simpl; rewrite !length_app; [|rewrite IH]; simpl; lia. }
  assert (forall fs d,
            length (flat_map snd
                      (fold_left
                         (fun d func => setdefault_append d (relpath (file_path func)) func)
                         fs d))
            = length (flat_map snd d) + length fs) as H.
  { induction fs as [|f fs IH]; intros d; simpl; [lia|].
    rewrite IH, Hstep. lia. }
  by rewrite H.
Qed.

Lemma blocks_length (functions : list FunctionInfo) (keys : list string) :
  length (flat_map (file_block relpath splitlines strip functions) keys)
  = 2 * length keys
    + length (flat_map (group_of (grouped relpath functions)) keys).
Proof.
  induction keys as [|k keys IH]; simpl; [done|].
  rewrite !length_app, IH, length_map, grouped_group. simpl. lia.
Qed.

End ReferenceLayout.

(** X13: the reference consists of one block per relative path of the
    records, the paths in strictly ascending order; the block of a path is its
    heading, one bullet for each record of that path in the order of the
    input, and a blank line.  A record without documentation, or with the
    empty string as documentation, gets the placeholder text in its bullet. *)
Theorem reference_is_blocks_by_path relpath splitlines strip
    (functions : list FunctionInfo) :
  (forall s, s <> "" -> splitlines s <> []) ->
  exists paths,
    StronglySorted (fun a b => String.ltb a b = true) paths
    /\ (forall k, In k paths <-> exists f, In f functions /\ relpath (file_path f) = k)
    /\ generate_api_reference relpath splitlines strip functions
       = Ok (flat_map (file_block relpath splitlines strip functions) paths)
    /\ forall f, docstring f = None \/ docstring f = Some "" ->
         bullet_line splitlines strip f
         = "- **" +:+ PyStr.replace_char "`"%char (backslash +:+ "`") (signature f)
           +:+ "**: " +:+ strip (hd "" (splitlines "TODO: Write documentation")).
Proof.
  intros Hsplit.
  exists (sorted String.leb (map fst (grouped relpath functions))).
  split; [apply sorted_paths_strict|]. split; [apply sorted_paths_members|].
  split; [by apply reference_is_blocks|].
  intros f [H|H]; unfold bullet_line, docstring_or_default; by rewrite H.
Qed.

Lemma reference_is_blocks_by_path_witness :
  (forall s, s <> "" -> (fun s : string => [s]) s <> [])
  /\ exists paths,
       (forall k, In k paths <->
          exists f, In f scattered_records /\ (fun p : string => p) (file_path f) = k)
       /\ generate_api_reference (fun p => p) (fun s => [s]) (fun s => s)
            scattered_records
          = Ok (flat_map
                  (file_block (fun p => p) (fun s => [s]) (fun s => s) scattered_records)
                  paths).
Proof.
  assert (forall s : string, s <> "" -> (fun s : string => [s]) s <> []) as H
    by (intros s _; discriminate).
  split; [exact H|].
  destruct (reference_is_blocks_by_path (fun p => p) (fun s => [s]) (fun s => s)
              scattered_records H) as (paths & _ & Hk & Hg & _).
  exists paths. split; [exact Hk|exact Hg].
Defined.

(** X14: the reference has a heading and a blank line for each distinct
    relative path and one bullet for each record: its length is twice the
    number of paths plus the number of records. *)
Theorem reference_length relpath splitlines strip (functions : list FunctionInfo) :
  (forall s, s <> "" -> splitlines s <> []) ->
  exists lines paths,
    generate_api_reference relpath splitlines strip functions = Ok lines
    /\ List.NoDup paths
    /\ (forall k, In k paths <-> exists f, In f functions /\ relpath (file_path f) = k)
    /\ length lines = 2 * length paths + length functions.
Proof.
  intros Hsplit.
  exists (flat_map (file_block relpath splitlines strip functions)
            (sorted String.leb (map fst (grouped relpath functions)))),
         (sorted String.leb (map fst (grouped relpath functions))).
  split; [by apply reference_is_blocks|]. split; [|split].
  - eapply Permutation.Permutation_NoDup; [symmetry; apply sorted_perm|].
    apply grouped_keys_NoDup.
  - apply sorted_paths_members.
  - rewrite blocks_length. f_equal.
    rewrite (Permutation_length
               (Permutation_flat_map (group_of (grouped relpath functions))
                  (sorted_perm String.leb (map fst (grouped relpath functions))))).
    rewrite group_sizes by apply grouped_keys_NoDup.
    apply grouped_total.
Qed.

Lemma reference_length_witness :
  (forall s, s <> "" -> (fun s : string => [s]) s <> [])
  /\ exists lines paths : list string,
       generate_api_reference (fun p => p) (fun s => [s]) (fun s => s) scattered_records
       = Ok lines
       /\ length lines = 2 * length paths + length scattered_records.
Proof.
  assert (forall s : string, s <> "" -> (fun s : string => [s]) s <> []) as H
    by (intros s _; discriminate).
  split; [exact H|].
  destruct (reference_length (fun p => p) (fun s => [s]) (fun s => s)
              scattered_records H) as (lines & paths & Hg & _ & _ & Hl).
  exists lines, paths. split; [exact Hg|exact Hl].
Defined.

(** ** The document after an update *)





Lemma new_contents_total (contents block : string) :
  exists x y, new_contents contents block = Ok (x +:+ block +:+ y).
Proof.
  destruct (PyStr.contains start_marker contents) eqn:E1,
           (PyStr.contains end_marker contents) eqn:E2.
  1: { apply contains_occurs, cut_occurs in E1 as (b1 & a1 & H1).
       apply contains_occurs, cut_occurs in E2 as (b2 & a2 & H2).
       rewrite (new_contents_replace _ _ _ _ _ _ H1 H2). eauto. }
  all: rewrite new_contents_append;
    [eauto|intros [Hs He]; apply contains_occurs in Hs, He; congruence].
Qed.

Section UpdateFacts.

Variable relpath : string -> string.
Variable splitlines : string -> list string.
Variable strip : string -> string.

Lemma update_readme_absent (project_root : string) (functions : list FunctionInfo)
    (w : world) (api_lines : list string) :
  files w !! path_join project_root "README.md" = None ->
  generate_api_reference relpath splitlines strip functions = Ok api_lines ->
  update_readme relpath splitlines strip project_root functions w
  = ({| files := <[path_join project_root "README.md" :=
                     default_document +:+ api_content api_lines +:+ newline]> (files w);
        log := log w ++ [EvWrite (path_join project_root "README.md")] |}, Ok tt).
Proof.
  intros Hf Hg.
  unfold update_readme, bind, path_exists, lift, write_text, ret.
  rewrite bool_decide_eq_false_2 by (rewrite Hf; by intros [? ?]).
  cbv beta iota zeta. rewrite Hg. cbv beta iota zeta.
  change ("# Project Documentation" +:+ newline +:+ newline) with default_document.
  rewrite new_contents_append.
  - reflexivity.
  - intros [Hs _]. apply contains_occurs in Hs. discriminate Hs.
Qed.

(** The outcome of an update, by cases on the document and on the rendering
    of the reference. *)
Lemma update_readme_cases (project_root : string) (functions : list FunctionInfo)
    (w : world) :
  let readme := path_join project_root "README.md" in
  let contents :=
    match files w !! readme with
    | Some text => universal_newlines text
    | None => default_document
    end in
  let reads :=
    match files w !! readme with
    | Some _ => [EvRead readme]
    | None => []
    end in
  match generate_api_reference relpath splitlines strip functions with
  | Ok api_lines =>
      exists x y,
        update_readme relpath splitlines strip project_root functions w
        = ({| files := <[readme := x +:+ api_content api_lines +:+ y]> (files w);
              log := (log w ++ reads) ++ [EvWrite readme] |}, Ok tt)
        /\ new_contents contents (api_content api_lines)
           = Ok (x +:+ api_content api_lines +:+ y)
  | Raise e =>
      update_readme relpath splitlines strip project_root functions w
      = ({| files := files w; log := log w ++ reads |}, Raise e)
  end.
Proof.
  intros readme contents reads. subst readme contents reads.
  destruct (generate_api_reference relpath splitlines strip functions)
    as [api_lines|e] eqn:Hg.
  - destruct (files w !! path_join project_root "README.md") as [text|] eqn:Hf.
    + destruct (new_contents_total (universal_newlines text) (api_content api_lines))
        as (x & y & Hn).
      exists x, y. split; [|done].
      exact (update_readme_existing _ _ _ _ _ _ _ _ _ Hf Hg Hn).
    + destruct (new_contents_total default_document (api_content api_lines))
        as (x & y & Hn).
      exists x, y. split; [|done].
      rewrite (update_readme_absent _ _ _ _ Hf Hg).
      rewrite new_contents_append in Hn.
      * injection Hn as <-. by rewrite app_nil_r.
      * intros [Hs _]. apply contains_occurs in Hs. discriminate Hs.
  - unfold update_readme, bind, path_exists, read_text, lift, ret.
    destruct (files w !! path_join project_root "README.md") as [text|] eqn:Hf.
    + rewrite bool_decide_eq_true_2 by eauto.
      cbv beta iota zeta. rewrite Hf. cbv beta iota zeta. by rewrite Hg.
    + rewrite bool_decide_eq_false_2 by (by intros [? ?]).
      cbv beta iota zeta. rewrite Hg. destruct w. simpl. by rewrite app_nil_r.
Qed.

End UpdateFacts.

(** X15: when the document does not exist, the update creates it without
    reading anything: it holds the default header line and a blank line, then
    the block between the two markers, then a line ending. *)
Theorem absent_readme_is_created relpath splitlines strip
    (project_root : string) (functions : list FunctionInfo) (w : world)
    (api_lines : list string) :
  files w !! path_join project_root "README.md" = None ->
  generate_api_reference relpath splitlines strip functions = Ok api_lines ->
  update_readme relpath splitlines strip project_root functions w
  = ({| files := <[path_join project_root "README.md" :=
                     default_document +:+ api_content api_lines +:+ newline]> (files w);
        log := log w ++ [EvWrite (path_join project_root "README.md")] |}, Ok tt).
Proof. apply update_readme_absent. Qed.

Lemma absent_readme_is_created_witness :
  files empty_world !! path_join "proj" "README.md" = None
  /\ generate_api_reference (fun p => p) (fun s => [s]) (fun s => s) scattered_records
     = Ok [ "### `app.py`"; "- **main()**: TODO: Write documentation"; "";
            "### `pkg/config.py`"; "- **load(path)**: Load."; "";
            "### `pkg/worker.py`"; "- **run(job)**: Run a job.";
            "- **stop()**: TODO: Write documentation"; "" ]
  /\ (update_readme (fun p => p) (fun s => [s]) (fun s => s) "proj" scattered_records
        empty_world).2 = Ok tt.
Proof.
  assert (files empty_world !! path_join "proj" "README.md" = None) as H1 by reflexivity.
  assert (generate_api_reference (fun p => p) (fun s => [s]) (fun s => s)
            scattered_records
          = Ok [ "### `app.py`"; "- **main()**: TODO: Write documentation"; "";
                 "### `pkg/config.py`"; "- **load(path)**: Load."; "";
                 "### `pkg/worker.py`"; "- **run(job)**: Run a job.";
                 "- **stop()**: TODO: Write documentation"; "" ]) as H2 by reflexivity.
  split; [exact H1|]. split; [exact H2|].
  rewrite (absent_readme_is_created (fun p => p) (fun s => [s]) (fun s => s)
             "proj" scattered_records empty_world _ H1 H2).
  reflexivity.
Defined.

(** X16: an update changes no file but the document itself, and reads and
    writes nothing else, whether it ends normally or with an exception. *)
Theorem update_touches_readme_only relpath splitlines strip
    (project_root : string) (functions : list FunctionInfo) (w : world) (path : string) :
  path <> path_join project_root "README.md" ->
  let w' := (update_readme relpath splitlines strip project_root functions w).1 in
  files w' !! path = files w !! path
  /\ exists new, log w' = log w ++ new /\ Forall (fun e => ~ touches path e) new.
Proof.
  intros Hne w'. subst w'.
  pose proof (update_readme_cases relpath splitlines strip project_root functions w) as H.
  cbv zeta in H.
  assert (forall e, touches (path_join project_root "README.md") e -> ~ touches path e)
    as Hev by (intros e [->| ->] [E|E]; congruence).
  destruct (generate_api_reference relpath splitlines strip functions) as [api_lines|e].
  - destruct H as (x & y & -> & _). simpl. split; [by apply lookup_insert_ne|].
    eexists. rewrite <- app_assoc. split; [done|].
    apply Forall_app. split.
    + destruct (files w !! _); repeat constructor. apply Hev. by left.
    + repeat constructor. apply Hev. by right.
  - rewrite H. simpl. split; [done|]. eexists. split; [done|].
    destruct (files w !! _); repeat constructor. apply Hev. by left.
Qed.

Lemma update_touches_readme_only_witness :
  "lib.py" <> path_join "proj" "README.md"
  /\ files (update_readme (fun p => p) (fun s => [s]) (fun s => s) "proj" mixed_records
              mixed_world).1 !! "lib.py"
     = files mixed_world !! "lib.py".
Proof.
  assert ("lib.py" <> path_join "proj" "README.md") as H by discriminate.
  split; [exact H|].
  exact (proj1 (update_touches_readme_only (fun p => p) (fun s => [s]) (fun s => s)
                  "proj" mixed_records mixed_world "lib.py" H)).
Defined.



(** ** The files that a run of the command line may change *)

Lemma gather_file_path (node : ast.node) (file_path' : string) :
  Forall (fun info => file_path info = file_path')
    (_gather_functions node file_path').
Proof.
  pose proof (gather_reached node file_path') as H.
  induction H as [|d info ds infos Hd _ IH]; constructor; [|done].
  destruct d; simpl in Hd; try done; by subst.
Qed.

Lemma bind_files_frame {A B : Type} (m : IO A) (k : A -> IO B) (w : world)
    (path : string) :
  files (m w).1 !! path = files w !! path ->
  (forall a w1, m w = (w1, Ok a) -> files (k a w1).1 !! path = files w1 !! path) ->
  files (bind m k w).1 !! path = files w !! path.
Proof.
  intros Hm Hk. unfold bind. destruct (m w) as [w1 [a|e]] eqn:E; simpl in *; [|done].
  by rewrite (Hk a w1 eq_refl).
Qed.

Lemma str_app_inj_suffix (a b p q : string) :
  String.length p = String.length q -> a +:+ p = b +:+ q -> p = q.
Proof.
  intros Hlen. revert b. induction a as [|c a IH]; intros [|d b] H.
  - done.
  - rewrite str_app_nil_l in H. subst p. rewrite str_length_app in Hlen.
    simpl in Hlen. lia.
  - rewrite str_app_nil_l in H. subst q. rewrite str_length_app in Hlen.
    simpl in Hlen. lia.
  - rewrite !str_app_cons in H. injection H as _ H. by eapply IH.
Qed.

(** The document is never among the discovered files: its name does not end
    with [.py]. *)
Lemma readme_not_discovered (project_dir : string) (tree : dir) :
  ~ In (path_join project_dir "README.md") (find_python_files project_dir tree).
Proof.
  intros [a Ha]%found_path_py%endswith_occurs.
  destruct (path_join_ends project_dir "README.md") as [x Hx]. rewrite Hx in Ha.
  change "README.md" with ("README" +:+ ".md") in Ha.
  rewrite <- str_app_assoc in Ha.
  apply str_app_inj_suffix in Ha; [discriminate Ha|done].
Qed.

Section CliFacts.

Variable ast_parse : string -> ast.parse_result.
Variable relpath : string -> string.
Variable splitlines : string -> list string.
Variable strip : string -> string.

Lemma scan_python_file_paths path w w1 found :
  scan_python_file ast_parse path w = (w1, Ok found) ->
  Forall (fun info => file_path info = path) found.
Proof.
  unfold scan_python_file, bind, ret, raise.
  destruct (read_text path w) as [w0 [source|e]]; [|done].
  destruct (ast_parse source); intros [= <- <-]; [apply gather_file_path|constructor].
Qed.

Lemma scan_loop_paths (all paths : list string) acc w w1 functions :
  (forall p, In p paths -> In p all) ->
  Forall (fun info => In (file_path info) all) acc ->
  for_each (scan_step ast_parse) paths acc w = (w1, Ok functions) ->
  Forall (fun info => In (file_path info) all) functions.
Proof.
  revert acc w. induction paths as [|p paths IH]; intros acc w Hsub Hacc.
  - simpl. unfold ret. by intros [= <- <-].
  - rewrite for_each_cons. unfold scan_step at 1, bind, ret.
    destruct (scan_python_file ast_parse p w) as [w0 [found|e]] eqn:E; [|done].
    apply IH; [intros; apply Hsub; by right|].
    apply Forall_app. split; [done|].
    eapply Forall_impl; [exact (scan_python_file_paths _ _ _ _ E)|].
    intros info ->. apply Hsub. by left.
Qed.

Lemma scan_files_paths (paths : list string) w w1 functions :
  scan_files ast_parse paths w = (w1, Ok functions) ->
  Forall (fun info => In (file_path info) paths) functions.
Proof. apply scan_loop_paths; [done|constructor]. Qed.

Lemma scan_files_frame (paths : list string) w path :
  files (scan_files ast_parse paths w).1 !! path = files w !! path.
Proof. unfold scan_files. by rewrite scan_loop_files. Qed.

Lemma insert_frame (functions : list FunctionInfo) (all : list string) w path :
  Forall (fun info => In (file_path info) all) functions ->
  ~ In path all ->
  files (insert_missing_docstrings functions w).1 !! path = files w !! path.
Proof.
  intros Hall Hnot. apply patch_loop_frame.
  intros (f & Hf & _ & <-)%functions_by_file_keys.
  rewrite Forall_forall in Hall. by apply Hnot, Hall, list_elem_of_In.
Qed.

Lemma update_readme_frame (project_root : string) (functions : list FunctionInfo)
    (w : world) (path : string) :
  path <> path_join project_root "README.md" ->
  files (update_readme relpath splitlines strip project_root functions w).1 !! path
  = files w !! path.
Proof.
  intros Hne.
  pose proof (update_readme_cases relpath splitlines strip project_root functions w) as H.
  cbv zeta in H.
  destruct (generate_api_reference relpath splitlines strip functions) as [api_lines|e].
  - destruct H as (x & y & -> & _). simpl. by apply lookup_insert_ne.
  - by rewrite H.
Qed.

Lemma main_frame (project_dir : string) (tree : dir) (no_docstrings no_readme : bool)
    (w : world) (path : string) :
  (no_docstrings = true \/ ~ In path (find_python_files project_dir tree)) ->
  (no_readme = true \/ path <> path_join project_dir "README.md") ->
  files (main ast_parse relpath splitlines strip project_dir tree
           no_docstrings no_readme w).1 !! path
  = files w !! path.
Proof.
  intros Hd Hr. unfold main.
  apply bind_files_frame; [apply scan_files_frame|].
  intros functions w1 Hscan. apply scan_files_paths in Hscan.
  apply bind_files_frame.
  - destruct no_docstrings; [done|].
    destruct Hd as [Hd|Hd]; [done|].
    apply bind_files_frame; [by eapply insert_frame|].
    intros inserted w2 _. destruct (inserted >? 0)%Z; [apply scan_files_frame|done].
  - intros functions' w2 _. destruct no_readme; [done|].
    destruct Hr as [Hr|Hr]; [done|]. by apply update_readme_frame.
Qed.

End CliFacts.

(** X18: a run changes no file that is neither a discovered Python file nor
    the document [README.md] of the project directory, whatever the toggles
    and whether the run ends normally or with an exception. *)
Theorem run_changes_only_sources_and_readme
    (ast_parse : string -> ast.parse_result) relpath splitlines strip
    (project_dir : string) (tree : dir) (no_docstrings no_readme : bool)
    (w : world) (path : string) :
  ~ In path (find_python_files project_dir tree) ->
  path <> path_join project_dir "README.md" ->
  files (main ast_parse relpath splitlines strip project_dir tree
           no_docstrings no_readme w).1 !! path
  = files w !! path.
Proof. intros H1 H2. apply main_frame; by right. Qed.

Lemma run_changes_only_sources_and_readme_witness :
  ~ In "/proj/.venv/notes.txt" (find_python_files "/proj" sample_project)
  /\ "/proj/.venv/notes.txt" <> path_join "/proj" "README.md"
  /\ files (main sample_parse (fun p => p) (fun s => [s]) (fun s => s)
              "/proj" sample_project false false empty_world).1
       !! "/proj/.venv/notes.txt"
     = files empty_world !! "/proj/.venv/notes.txt".
Proof.
  assert (~ In "/proj/.venv/notes.txt" (find_python_files "/proj" sample_project)) as H1
    by (vm_compute; intros [H|[H|[]]]; discriminate H).
  assert ("/proj/.venv/notes.txt" <> path_join "/proj" "README.md") as H2
    by discriminate.
  split; [exact H1|]. split; [exact H2|].
  exact (run_changes_only_sources_and_readme sample_parse (fun p => p) (fun s => [s])
           (fun s => s) "/proj" sample_project false false empty_world _ H1 H2).
Defined.

(** X19: with the toggle that skips the insertion, a run changes no file but
    the document; with the toggle that skips the document, a run never changes
    the document; with both toggles it changes no file at all. *)
Theorem toggles_switch_off_writes
    (ast_parse : string -> ast.parse_result) relpath splitlines strip
    (project_dir : string) (tree : dir) (w : world) :
  (forall no_readme path,
     path <> path_join project_dir "README.md" ->
     files (main ast_parse relpath splitlines strip project_dir tree
              true no_readme w).1 !! path
     = files w !! path)
  /\ (forall no_docstrings,
        files (main ast_parse relpath splitlines strip project_dir tree
                 no_docstrings true w).1 !! path_join project_dir "README.md"
        = files w !! path_join project_dir "README.md")
  /\ files (main ast_parse relpath splitlines strip project_dir tree true true w).1
     = files w.
Proof.
  split; [|split].
  - intros no_readme path H. apply main_frame; [by left|by right].
  - intros no_docstrings. apply main_frame; [right|by left].
    apply readme_not_discovered.
  - apply map_eq. intros path. apply main_frame; by left.
Qed.

Lemma toggles_switch_off_writes_witness :
  "/proj/main.py" <> path_join "/proj" "README.md"
  /\ files (main sample_parse (fun p => p) (fun s => [s]) (fun s => s)
              "/proj" sample_project true false empty_world).1 !! "/proj/main.py"
     = files empty_world !! "/proj/main.py".
Proof.
  assert ("/proj/main.py" <> path_join "/proj" "README.md") as H by discriminate.
  split; [exact H|].
  exact (proj1 (toggles_switch_off_writes sample_parse (fun p => p) (fun s => [s])
                  (fun s => s) "/proj" sample_project empty_world) false _ H).
Defined.

(** ** Signatures *)

Lemma split_at_char (c : ascii) (a b x y : string) :
  has_char c a = false -> has_char c b = false ->
  a +:+ String c x = b +:+ String c y -> a = b /\ x = y.
Proof.
  revert b. induction a as [|d a IH]; intros [|e b] Ha Hb H.
  - rewrite !str_app_nil_l in H. by injection H.
  - rewrite str_app_nil_l, str_app_cons in H. injection H as <- _.
    simpl in Hb. by rewrite Ascii.eqb_refl in Hb.
  - rewrite str_app_nil_l, str_app_cons in H. injection H as -> _.
    simpl in Ha. by rewrite Ascii.eqb_refl in Ha.
  - rewrite !str_app_cons in H. injection H as -> H.
    simpl in Ha, Hb. apply orb_false_iff in Ha as [_ Ha], Hb as [_ Hb].
    destruct (IH b Ha Hb H) as [-> ->]. done.
Qed.

Lemma str_app_inj_prefix (a b p : string) : a +:+ p = b +:+ p -> a = b.
Proof.
  revert b. induction a as [|c a IH]; intros [|d b] H.
  - done.
  - exfalso. apply (f_equal String.length) in H.
    rewrite str_app_nil_l, str_length_app in H. simpl in H. lia.
  - exfalso. apply (f_equal String.length) in H.
    rewrite str_app_nil_l, str_length_app in H. simpl in H. lia.
  - rewrite !str_app_cons in H. injection H as -> H. f_equal. by apply IH.
Qed.

Lemma has_char_app (c : ascii) (a b : string) :
  has_char c (a +:+ b) = has_char c a || has_char c b.
Proof.
  induction a as [|d a IH]; [done|].
  rewrite str_app_cons. simpl. by rewrite IH, orb_assoc.
Qed.

Lemma plain_name_facts (s : string) :
  plain_name s = true ->
  s <> "" /\ has_char "("%char s = false /\ has_char ","%char s = false.
Proof.
  unfold plain_name. rewrite !andb_true_iff, !negb_true_iff, String.eqb_neq. tauto.
Qed.

Lemma join_comma_cons (x y : string) (l : list string) :
  PyStr.join ", " (x :: y :: l) = x +:+ String ","%char (" " +:+ PyStr.join ", " (y :: l)).
Proof. reflexivity. Qed.

Lemma join_comma_nonempty (x : string) (l : list string) :
  x <> "" -> PyStr.join ", " (x :: l) <> "".
Proof.
  intros Hx. destruct l as [|y l]; [done|].
  rewrite join_comma_cons. by destruct x.
Qed.

Lemma join_comma_inj (l1 l2 : list string) :
  forallb plain_name l1 = true -> forallb plain_name l2 = true ->
  PyStr.join ", " l1 = PyStr.join ", " l2 -> l1 = l2.
Proof.
  revert l2. induction l1 as [|x l1 IH]; intros l2 H1 H2 E.
  - destruct l2 as [|y l2]; [done|]. simpl in H2. apply andb_true_iff in H2 as [Hy _].
    apply plain_name_facts in Hy as [Hy _].
    symmetry in E. by apply join_comma_nonempty in E.
  - simpl in H1. apply andb_true_iff in H1 as [Hx H1].
    pose proof (plain_name_facts _ Hx) as (Hx0 & _ & Hxc).
    destruct l2 as [|y l2]; [by apply join_comma_nonempty in E|].
    simpl in H2. apply andb_true_iff in H2 as [Hy H2].
    pose proof (plain_name_facts _ Hy) as (Hy0 & _ & Hyc).
    destruct l1 as [|x' l1], l2 as [|y' l2].
    + simpl in E. by subst.
    + rewrite join_comma_cons in E. simpl in E. subst x.
      rewrite has_char_app in Hxc. simpl in Hxc.
      by rewrite orb_true_r in Hxc.
    + rewrite join_comma_cons in E. simpl in E. subst y.
      rewrite has_char_app in Hyc. simpl in Hyc.
      by rewrite orb_true_r in Hyc.
    + rewrite !join_comma_cons in E.
      apply split_at_char in E as [-> E]; [|done..].
      rewrite !str_app_cons, !str_app_nil_l in E. injection E as E.
      f_equal. by apply IH.
Qed.

(** X20: the signature names the record unambiguously: two records whose
    names and parameters are plain names (not empty, without parenthesis or
    comma, as identifiers are) and whose signatures are equal have the same
    name and the same parameter list. *)
Theorem signature_determines_name_and_parameters (f g : FunctionInfo) :
  plain_record f = true -> plain_record g = true ->
  signature f = signature g ->
  name f = name g /\ args f = args g.
Proof.
  unfold plain_record, signature. rewrite !andb_true_iff.
  intros [Hnf Haf] [Hng Hag] E.
  pose proof (plain_name_facts _ Hnf) as (_ & Hf & _).
  pose proof (plain_name_facts _ Hng) as (_ & Hg & _).
  change "(" with (String "("%char "") in E.
  rewrite !str_app_cons, !str_app_nil_l in E.
  apply split_at_char in E as [En E]; [|done..].
  split; [done|].
  apply str_app_inj_prefix in E. by apply join_comma_inj.
Qed.

Lemma signature_determines_name_and_parameters_witness :
  plain_record (function_info "a.py" "f" (plain_args ["self"; "x"; "y"]) [] 1 0) = true
  /\ plain_record (function_info "b.py" "f" (plain_args ["x"; "self"; "y"]) [] 7 4) = true
  /\ signature (function_info "a.py" "f" (plain_args ["self"; "x"; "y"]) [] 1 0)
     = signature (function_info "b.py" "f" (plain_args ["x"; "self"; "y"]) [] 7 4)
  /\ args (function_info "a.py" "f" (plain_args ["self"; "x"; "y"]) [] 1 0)
     = args (function_info "b.py" "f" (plain_args ["x"; "self"; "y"]) [] 7 4).
Proof.
  split; [reflexivity|]. split; [reflexivity|]. split; [reflexivity|].
  exact (proj2 (signature_determines_name_and_parameters
                  (function_info "a.py" "f" (plain_args ["self"; "x"; "y"]) [] 1 0)
                  (function_info "b.py" "f" (plain_args ["x"; "self"; "y"]) [] 7 4)
                  eq_refl eq_refl eq_refl)).
Defined.

(** * Headers on an unterminated last line, parse failures that are not
      syntax errors *)

(** C3: in a file whose last line is a header without line ending, the header
    is at line 2 of the two lines read, yet the stub is not written as the
    line after it: the file written has two lines, the second being the header
    with the stub glued to it, and no line of index 2. *)
Theorem stub_glued_to_unterminated_header :
  let lines := lines_of (universal_newlines unterminated_source) in
  let run := insert_missing_docstrings [unterminated_record] unterminated_world in
  lines = ["x = 1" +:+ newline; "def f(): pass"]
  /\ (1 <= lineno unterminated_record <= Z.of_nat (length lines))%Z
  /\ run.2 = Ok 1%Z
  /\ exists new,
       files run.1 !! "u.py" = Some new
       /\ lines_of new
          = ["x = 1" +:+ newline; "def f(): pass" +:+ stub unterminated_record]
       /\ lines_of new !! 2 = None.
Proof.
  split; [reflexivity|]. split; [by vm_compute|]. split; [reflexivity|].
  eexists. split; [reflexivity|]. split; reflexivity.
Qed.


(** ** The lines of a rewritten file *)

Lemma lines_of_nil (text : string) : lines_of text = [] -> text = "".
Proof.
  destruct text as [|c text]; [done|]. simpl.
  destruct (Ascii.eqb c "010"); [done|]. by destruct (lines_of text).
Qed.

Lemma lines_of_cons (c : ascii) (text : string) :
  lines_of (String c text) =
  if Ascii.eqb c "010" then String c EmptyString :: lines_of text
  else match lines_of text with
       | [] => [String c EmptyString]
       | l :: ls => String c l :: ls
       end.
Proof. reflexivity. Qed.

Lemma lines_of_line (l rest : string) :
  is_line l -> lines_of (l +:+ rest) = l :: lines_of rest.
Proof.
  intros (body & -> & Hbody). induction body as [|c body IH].
  - rewrite str_app_nil_l. unfold newline. rewrite str_app_cons, str_app_nil_l.
    by rewrite lines_of_cons.
  - simpl in Hbody. apply orb_false_iff in Hbody as [Hc Hbody].
    rewrite !str_app_cons, lines_of_cons, Hc, (IH Hbody). done.
Qed.

(** Reading back what [writelines] wrote gives the lines written, when each
    of them is a line with its line ending. *)
Lemma lines_of_concat (ls : list string) :
  Forall is_line ls -> lines_of (String.concat "" ls) = ls.
Proof.
  induction 1 as [|l ls Hl _ IH]; [done|].
  by rewrite concat_empty_cons, lines_of_line, IH.
Qed.

Lemma lines_of_terminated (text : string) :
  Forall is_line (lines_of (text +:+ newline)).
Proof.
  induction text as [|c text IH].
  - rewrite str_app_nil_l. repeat constructor. by exists "".
  - rewrite str_app_cons, lines_of_cons.
    destruct (Ascii.eqb c "010") eqn:Hc.
    + constructor; [|done]. apply Ascii.eqb_eq in Hc as ->. by exists "".
    + destruct (lines_of (text +:+ newline)) as [|l ls] eqn:E.
      * apply lines_of_nil in E. by destruct text.
      * apply Forall_cons in IH as [(body & -> & Hbody) IH].
        constructor; [|done]. exists (String c body). split; [done|].
        simpl. by rewrite Hc, Hbody.
Qed.

Lemma has_char_spaces (c : ascii) (n : Z) :
  c <> " "%char -> has_char c (PyStr.spaces n) = false.
Proof.
  intros Hc. unfold PyStr.spaces. induction (Z.to_nat n) as [|k IH]; [done|].
  change (has_char c (string_of_list_ascii (repeat " "%char (S k))))
    with (Ascii.eqb " " c || has_char c (string_of_list_ascii (repeat " "%char k))).
  rewrite IH, orb_false_r. apply Ascii.eqb_neq. congruence.
Qed.

Lemma stub_is_line (f : FunctionInfo) :
  has_char "010"%char (name f) = false -> is_line (stub f).
Proof.
  intros Hname.
  exists (PyStr.spaces (col_offset f + 4) +:+ dquote +:+ dquote +:+ dquote
          +:+ "TODO: Document `" +:+ name f +:+ "`." +:+ dquote +:+ dquote +:+ dquote).
  split.
  - unfold stub. by rewrite !str_app_assoc.
  - rewrite !has_char_app, Hname, has_char_spaces by discriminate. reflexivity.
Qed.

(** X22: when the files of the undocumented records exist, a file with such
    records whose text ends with a line ending, the names of its records being
    free of line breaks, is rewritten so that reading it back gives the line
    array with the stubs inserted: the stubs are lines of their own in the
    file.  When the headers are at lines of the file, each original line then
    lies lower in the file by one line per stub inserted at or above it, and
    the stub of a record that shares its header line with no other record
    processed after it is the line directly after its unchanged header. *)
Theorem rewritten_file_lines (functions : list FunctionInfo) (w : world)
    (path text : string) :
  let funcs := List.filter (eligible_in path) functions in
  let lines := lines_of (universal_newlines text) in
  (forall f, In f functions -> docstring f = None -> is_Some (files w !! file_path f)) ->
  files w !! path = Some text ->
  funcs <> [] ->
  PyStr.endswith (universal_newlines text) newline = true ->
  Forall (fun f => has_char "010"%char (name f) = false) funcs ->
  exists w' new,
    insert_missing_docstrings functions w
    = (w', Ok (Z.of_nat (length (List.filter undocumented functions))))
    /\ files w' !! path = Some new
    /\ lines_of new = insert_stubs lines funcs
    /\ (Forall (fun f => (1 <= lineno f <= Z.of_nat (length lines))%Z) funcs ->
        (forall j, j < length lines ->
           lines_of new !! (j + stubs_above j funcs) = lines !! j)
        /\ (forall p f q, funcs_sorted funcs = p ++ f :: q ->
              Forall (fun g => lineno g <> lineno f) q ->
              let L := Z.to_nat (lineno f) in
              lines_of new !! (L - 1 + length q) = lines !! (L - 1)
              /\ lines_of new !! (L + length q) = Some (stub f))).
Proof.
  intros funcs lines Hex Hf Hne Hend Hnames.
  destruct (rewritten_file_contents functions w Hex) as (w' & Hrun & Hfiles).
  exists w', (patched text funcs). split; [exact Hrun|].
  assert (lines_of (patched text funcs) = insert_stubs lines funcs) as Hlines.
  { unfold patched. fold lines. apply lines_of_concat.
    eapply Permutation_Forall;
      [symmetry; apply (insert_steps_permutation (funcs_sorted funcs) lines)|].
    apply Forall_app. split.
    - subst lines. apply endswith_occurs in Hend as [a ->].
      apply lines_of_terminated.
    - apply Forall_forall. intros s Hs.
      apply list_elem_of_In, in_map_iff in Hs as (f & <- & Hin).
      apply stub_is_line. rewrite Forall_forall in Hnames.
      apply Hnames, list_elem_of_In.
      eapply Permutation_in; [symmetry; apply funcs_sorted_perm|exact Hin]. }
  split; [|split; [exact Hlines|]].
  - rewrite Hfiles. fold funcs. destruct funcs; [done|]. by rewrite Hf.
  - intros Hin. rewrite Hlines.
    destruct (insertions_place_stubs lines funcs Hin) as (_ & _ & Hpos & Hshift & _).
    split; [exact Hshift|].
    intros p f q E Hq L. destruct (Hpos p f q E) as (_ & _ & _ & Hstub & Hhead).
    split; [by apply Hhead|exact Hstub].
Qed.

Lemma rewritten_file_lines_witness :
  (forall f, In f mixed_records -> docstring f = None ->
     is_Some (files mixed_world !! file_path f))
  /\ files mixed_world !! "app.py"
     = Some ("def todo():" +:+ newline +:+ "    pass" +:+ newline)
  /\ List.filter (eligible_in "app.py") mixed_records <> []
  /\ PyStr.endswith
       (universal_newlines ("def todo():" +:+ newline +:+ "    pass" +:+ newline))
       newline = true
  /\ Forall (fun f => has_char "010"%char (name f) = false)
       (List.filter (eligible_in "app.py") mixed_records)
  /\ exists w' new,
       files w' !! "app.py" = Some new
       /\ lines_of new
          = [ "def todo():" +:+ newline;
              "    " +:+ dquote +:+ dquote +:+ dquote +:+ "TODO: Document `todo`."
                +:+ dquote +:+ dquote +:+ dquote +:+ newline;
              "    pass" +:+ newline ].
Proof.
  assert (forall f, In f mixed_records -> docstring f = None ->
            is_Some (files mixed_world !! file_path f)) as H1.
  { intros f [<-|[<-|[]]]; simpl; [discriminate|]. intros _. eexists. reflexivity. }
  assert (files mixed_world !! "app.py"
          = Some ("def todo():" +:+ newline +:+ "    pass" +:+ newline)) as H2
    by reflexivity.
  assert (List.filter (eligible_in "app.py") mixed_records <> []) as H3
    by discriminate.
  assert (PyStr.endswith
            (universal_newlines ("def todo():" +:+ newline +:+ "    pass" +:+ newline))
            newline = true) as H4 by reflexivity.
  assert (Forall (fun f => has_char "010"%char (name f) = false)
            (List.filter (eligible_in "app.py") mixed_records)) as H5
    by (repeat constructor).
  split; [exact H1|]. split; [exact H2|]. split; [exact H3|].
  split; [exact H4|]. split; [exact H5|].
  destruct (rewritten_file_lines mixed_records mixed_world "app.py" _ H1 H2 H3 H4 H5)
    as (w' & new & _ & Hnew & Hl & _).
  exists w', new. split; [exact Hnew|]. rewrite Hl. reflexivity.
Defined.
